(** * KBNet: calibrated backprojection network

    A shallow embedding of [kbnet/networks.py]: the geometry helpers of the
    encoder ([camera_coordinates], [scale_intrinsics]), the pyramid logic of
    [KBNetEncoder], [MultiScaleDecoder], [PoseDecoder] and the min/max pooling
    of [SparseToDensePool].

    Conventions.
    - Python exceptions are values of [exn]; fallible code lives in [result].
    - float32 entries are modelled as rationals ([Q]); rounding is not
      modelled.  Equality of entries is [Qeq].
    - Dense numeric tensors are nested lists in row-major order.
    - Tensor sizes are natural numbers. *)

From Stdlib Require Import String DecimalString ZArith QArith Qminmax Qfield List Bool Arith Lia.
Import ListNotations.

Set Implicit Arguments.

(** ** Exceptions and the error monad *)

Inductive exn : Set :=
| AssertionError
| AttributeError
| IndexError
| LinAlgError
| NameError
| RuntimeError
| TypeError
| UnboundLocalError
| ValueError
| ZeroDivisionError.

Inductive result (A : Type) : Type :=
| Ok (a : A)
| Raise (e : exn).

Arguments Ok {A} a.
Arguments Raise {A} e.

Definition bind {A B : Type} (m : result A) (f : A -> result B) : result B :=
  match m with
  | Ok a => f a
  | Raise e => Raise e
  end.

Notation "x <- m ;; k" := (bind m (fun x => k))
  (at level 61, m at next level, right associativity).
Notation "' pat <- m ;; k" := (bind m (fun x => match x with pat => k end))
  (at level 61, pat pattern, m at next level, right associativity).

Fixpoint mapM {A B : Type} (f : A -> result B) (l : list A) : result (list B) :=
  match l with
  | [] => Ok []
  | a :: l' => b <- f a ;; bs <- mapM f l' ;; Ok (b :: bs)
  end.

(** [UnboundLocalError] is a subclass of [NameError] in Python. *)
Definition is_name_error (e : exn) : bool :=
  match e with
  | NameError | UnboundLocalError => true
  | _ => false
  end.

(** ** Dense tensors as nested lists *)

Definition tensor1 := list Q.
Definition tensor2 := list tensor1.
Definition tensor3 := list tensor2.
Definition tensor4 := list tensor3.

Definition flat2 (t : tensor2) : list Q := concat t.
Definition flat3 (t : tensor3) : list Q := concat (map flat2 t).
Definition flat4 (t : tensor4) : list Q := concat (map flat3 t).

(** [chunk k n l]: the [k] consecutive blocks of [n] elements of [l]. *)
Definition chunk {A : Type} (k n : nat) (l : list A) : list (list A) :=
  map (fun i => firstn n (skipn (i * n) l)) (seq 0 k).

(** [t.view(a, b, -1)] on the row-major data of [t].  The last size is
    inferred; torch refuses when it cannot be (no or ambiguous quotient). *)
Definition view3_infer (a b : nat) (data : list Q) : result tensor3 :=
  if (a * b =? 0)%nat then Raise RuntimeError
  else if (length data mod (a * b) =? 0)%nat then
    let m := (length data / (a * b))%nat in
    Ok (map (chunk b m) (chunk a (b * m) data))
  else Raise RuntimeError.

(** [t.view(a, b, c, d)] on the row-major data of [t]. *)
Definition view4 (a b c d : nat) (data : list Q) : result tensor4 :=
  if (length data =? a * (b * (c * d)))%nat then
    Ok (map (fun blk => map (chunk c d) (chunk b (c * d) blk))
            (chunk a (b * (c * d)) data))
  else Raise RuntimeError.

(** Broadcasting of the leading (batch) dimension of a binary operation:
    equal sizes are zipped, a size of one is repeated. *)
Fixpoint zipM {A B C : Type} (f : A -> B -> result C)
         (la : list A) (lb : list B) : result (list C) :=
  match la, lb with
  | a :: la', b :: lb' => c <- f a b ;; cs <- zipM f la' lb' ;; Ok (c :: cs)
  | _, _ => Ok []
  end.

Definition broadcast2 {A B C : Type} (f : A -> B -> result C)
           (la : list A) (lb : list B) : result (list C) :=
  if (length la =? length lb)%nat then zipM f la lb
  else match la, lb with
       | [a], _ => mapM (f a) lb
       | _, [b] => mapM (fun a => f a b) la
       | _, _ => Raise RuntimeError
       end.

Fixpoint map3 {A B C D : Type} (f : A -> B -> C -> D)
         (la : list A) (lb : list B) (lc : list C) : list D :=
  match la, lb, lc with
  | a :: la', b :: lb', c :: lc' => f a b c :: map3 f la' lb' lc'
  | _, _, _ => []
  end.

Definition at4 (t : tensor4) (b c y x : nat) : Q :=
  nth x (nth y (nth c (nth b t []) []) []) 0.

(** ** 3 x 3 matrices *)

Record mat3 := Mat3 {
  m00 : Q; m01 : Q; m02 : Q;
  m10 : Q; m11 : Q; m12 : Q;
  m20 : Q; m21 : Q; m22 : Q
}.

Definition mat3_eq (a b : mat3) : Prop :=
  m00 a == m00 b /\ m01 a == m01 b /\ m02 a == m02 b /\
  m10 a == m10 b /\ m11 a == m11 b /\ m12 a == m12 b /\
  m20 a == m20 b /\ m21 a == m21 b /\ m22 a == m22 b.

Definition mat3_eqb (a b : mat3) : bool :=
  Qeq_bool (m00 a) (m00 b) && Qeq_bool (m01 a) (m01 b) && Qeq_bool (m02 a) (m02 b) &&
  Qeq_bool (m10 a) (m10 b) && Qeq_bool (m11 a) (m11 b) && Qeq_bool (m12 a) (m12 b) &&
  Qeq_bool (m20 a) (m20 b) && Qeq_bool (m21 a) (m21 b) && Qeq_bool (m22 a) (m22 b).

(** Element-wise product, [a * b] on 3 x 3 tensors. *)
Definition mat3_hadamard (a b : mat3) : mat3 :=
  Mat3 (m00 a * m00 b) (m01 a * m01 b) (m02 a * m02 b)
       (m10 a * m10 b) (m11 a * m11 b) (m12 a * m12 b)
       (m20 a * m20 b) (m21 a * m21 b) (m22 a * m22 b).

Definition det3 (k : mat3) : Q :=
  m00 k * (m11 k * m22 k - m12 k * m21 k)
  - m01 k * (m10 k * m22 k - m12 k * m20 k)
  + m02 k * (m10 k * m21 k - m11 k * m20 k).

Definition adjugate (k : mat3) : mat3 :=
  Mat3 (m11 k * m22 k - m12 k * m21 k)
       (m02 k * m21 k - m01 k * m22 k)
       (m01 k * m12 k - m02 k * m11 k)
       (m12 k * m20 k - m10 k * m22 k)
       (m00 k * m22 k - m02 k * m20 k)
       (m02 k * m10 k - m00 k * m12 k)
       (m10 k * m21 k - m11 k * m20 k)
       (m01 k * m20 k - m00 k * m21 k)
       (m00 k * m11 k - m01 k * m10 k).

Definition mat3_smul (c : Q) (k : mat3) : mat3 :=
  Mat3 (c * m00 k) (c * m01 k) (c * m02 k)
       (c * m10 k) (c * m11 k) (c * m12 k)
       (c * m20 k) (c * m21 k) (c * m22 k).

(** [torch.inverse] on one matrix, in exact arithmetic: a singular matrix
    raises, otherwise the inverse is the adjugate over the determinant. *)
Definition inverse1 (k : mat3) : result mat3 :=
  if Qeq_bool (det3 k) 0 then Raise LinAlgError
  else Ok (mat3_smul (/ det3 k) (adjugate k)).

(** [torch.inverse] on a batch N x 3 x 3. *)
Definition inverse (k : list mat3) : result (list mat3) := mapM inverse1 k.

(** Matrix times column vector. *)
Definition mat3_vec (k : mat3) (v : Q * Q * Q) : Q * Q * Q :=
  let '(a, b, c) := v in
  (m00 k * a + m01 k * b + m02 k * c,
   m10 k * a + m11 k * b + m12 k * c,
   m20 k * a + m21 k * b + m22 k * c).

Definition vec3_eq (u v : Q * Q * Q) : Prop :=
  let '(a, b, c) := u in
  let '(a', b', c') := v in
  a == a' /\ b == b' /\ c == c'.

(** One batch element of [torch.matmul]: (3 x 3) times (3 x M). *)
Definition matmul1 (k : mat3) (x : tensor2) : result tensor2 :=
  match x with
  | [r0; r1; r2] =>
      Ok [ map3 (fun a b c => m00 k * a + m01 k * b + m02 k * c) r0 r1 r2;
           map3 (fun a b c => m10 k * a + m11 k * b + m12 k * c) r0 r1 r2;
           map3 (fun a b c => m20 k * a + m21 k * b + m22 k * c) r0 r1 r2 ]
  | _ => Raise RuntimeError
  end.

(** [torch.matmul] of N x 3 x 3 with N x 3 x M, batch dimension broadcast. *)
Definition matmul (k : list mat3) (x : tensor3) : result tensor3 :=
  broadcast2 matmul1 k x.

(** ** Geometry helpers of [KBNetEncoder.forward]

    [camera_coordinates] and [scale_intrinsics] are nested functions: besides
    their parameters they read variables of the enclosing [forward] frame.
    The variables of [forward] that the nested functions capture are the
    fields of [cells]; [None] is an unbound variable. *)

Record cells := Cells {
  n_batch : option nat;
  n_height0 : option nat;
  n_width0 : option nat;
  n_height1 : option nat;
  n_width1 : option nat
}.

(** Reading a captured variable inside a nested function. *)
Definition deref (v : option nat) : result nat :=
  match v with
  | Some n => Ok n
  | None => Raise NameError
  end.

Definition Qnat (n : nat) : Q := inject_Z (Z.of_nat n).

(** Python's [a / b] on integers. *)
Definition truediv (a b : nat) : result Q :=
  if (b =? 0)%nat then Raise ZeroDivisionError else Ok (Qnat a / Qnat b).

(** Modelled from the spec: [net_utils.meshgrid] with [homogeneous=True],
    which is not part of the sources; "builds a homogeneous pixel grid
    (x, y, 1)", of shape batch x 3 x H x W before it is viewed as
    batch x 3 x (H.W). *)
Definition meshgrid (batch height width : nat) : tensor4 :=
  repeat
    [ map (fun y => map (fun x => Qnat x) (seq 0 width)) (seq 0 height);
      map (fun y => map (fun x => Qnat y) (seq 0 width)) (seq 0 height);
      map (fun y => map (fun x => 1) (seq 0 width)) (seq 0 height) ]
    batch.

Definition camera_coordinates (fr : cells) (batch height width : nat)
           (k : list mat3) : result tensor4 :=
  let xy_h := meshgrid batch height width in
  xy_h <- view3_infer batch 3 (flat4 xy_h) ;;
  k_inv <- inverse k ;;
  coordinates <- matmul k_inv xy_h ;;
  nb <- deref (n_batch fr) ;;
  view4 nb 3 height width (flat3 coordinates).

(** The 3 x 3 matrix [[sx, 1, sx], [1, sy, sy], [1, 1, 1]]. *)
Definition scale_template (scale_x scale_y : Q) : mat3 :=
  Mat3 scale_x 1 scale_x
       1 scale_y scale_y
       1 1 1.

(** The parameters [height0], [width0], [height1], [width1] are rebound to
    tensors and not read again: the two quotients are taken on the captured
    [n_width1], [n_width0], [n_height1], [n_height0], and the repeat count is
    the captured [n_batch]. *)
Definition scale_intrinsics (fr : cells) (batch height0 width0 height1 width1 : nat)
           (k : list mat3) : result (list mat3) :=
  w1 <- deref (n_width1 fr) ;;
  w0 <- deref (n_width0 fr) ;;
  scale_x <- truediv w1 w0 ;;
  h1 <- deref (n_height1 fr) ;;
  h0 <- deref (n_height0 fr) ;;
  scale_y <- truediv h1 h0 ;;
  let scale := scale_template scale_x scale_y in
  nb <- deref (n_batch fr) ;;
  let scale := repeat scale nb in
  broadcast2 (fun a b => Ok (mat3_hadamard a b)) k scale.

Local Close Scope Q_scope.

(** ** Modules of [net_utils]

    [net_utils] is not part of the sources.  Its blocks are represented by
    the arguments they are constructed with, together with the attribute
    name they are registered under (which identifies their parameters); what
    a block computes is a field of the class [NetUtils]. *)

Inductive activation : Set := ActivationFunc (name : string).

Record Conv2d := MkConv2d {
  conv_name : string;
  conv_in_channels : nat;
  conv_out_channels : nat;
  conv_kernel_size : nat;
  conv_stride : nat;
  conv_weight_initializer : string;
  conv_activation_func : option activation;
  conv_use_batch_norm : bool;
  conv_use_instance_norm : bool
}.

Record VGGNetBlock := MkVGGNetBlock {
  vgg_name : string;
  vgg_in_channels : nat;
  vgg_out_channels : nat;
  vgg_n_convolution : nat;
  vgg_stride : nat;
  vgg_weight_initializer : string;
  vgg_activation_func : activation
}.

Record CalibratedBackprojectionBlock := MkCalibratedBackprojectionBlock {
  kb_name : string;
  kb_in_channels_image : nat;
  kb_in_channels_depth : nat;
  kb_in_channels_fused : nat;
  kb_n_filter_image : nat;
  kb_n_filter_depth : nat;
  kb_n_filter_fused : nat;
  kb_n_convolution_image : nat;
  kb_n_convolution_depth : nat;
  kb_n_convolution_fused : nat;
  kb_weight_initializer : string;
  kb_activation_func : activation
}.

Record DecoderBlock := MkDecoderBlock {
  dec_name : string;
  dec_in_channels : nat;
  dec_skip_channels : nat;
  dec_out_channels : nat;
  dec_weight_initializer : string;
  dec_activation_func : activation;
  dec_use_batch_norm : bool;
  dec_use_instance_norm : bool;
  dec_deconv_type : string
}.

(** The feature tensors of the encoder and of the decoder are abstract: the
    code only takes their [shape], concatenates them and hands them to
    blocks. *)
Class NetUtils := {
  tensor : Type;
  (** [x.shape] *)
  shape : tensor -> list nat;
  (** [torch.cat(xs, dim=1)] *)
  cat : list tensor -> tensor;
  (** [net_utils.activation_func(name)]; raises on a name it does not know *)
  activation_func : string -> result activation;
  Conv2d_forward : Conv2d -> tensor -> tensor;
  VGGNetBlock_forward : VGGNetBlock -> tensor -> tensor;
  (** [block(image=, depth=, coordinates=, fused=)] returns the image, depth
      and fused streams *)
  CalibratedBackprojectionBlock_forward :
    CalibratedBackprojectionBlock -> tensor -> tensor -> tensor4 ->
    option tensor -> tensor * tensor * tensor;
  (** [block(x, skip)] and [block(x, shape=)] *)
  DecoderBlock_forward :
    DecoderBlock -> tensor -> option tensor -> option (list nat) -> tensor;
  (** [torch.nn.functional.interpolate(input, size=)] *)
  interpolate_size : tensor -> list nat -> tensor;
  (** [torch.nn.functional.interpolate(input, scale_factor=)] *)
  interpolate_scale : tensor -> nat -> tensor
}.

(** Calls of blocks are observable: every call appends an event with the
    pyramid level of the call site, the block, its arguments and its
    result. *)
Inductive event `{NetUtils} : Type :=
| CallConv2d (level : nat) (m : Conv2d) (x out : tensor)
| CallVGGNetBlock (level : nat) (m : VGGNetBlock) (x out : tensor)
| CallCalibratedBackprojectionBlock (level : nat)
    (m : CalibratedBackprojectionBlock) (image depth : tensor)
    (coordinates : tensor4) (fused : option tensor)
    (out : tensor * tensor * tensor)
| CallDecoderBlock (level : nat) (m : DecoderBlock) (x : tensor)
    (skip : option tensor) (size : option (list nat)) (out : tensor).

(** State (the log of calls) and exceptions. *)
Definition M `{NetUtils} (A : Type) : Type :=
  list event -> result (A * list event).

Definition ret `{NetUtils} {A : Type} (a : A) : M A := fun log => Ok (a, log).

Definition bindM `{NetUtils} {A B : Type} (m : M A) (f : A -> M B) : M B :=
  fun log =>
    match m log with
    | Ok (a, log') => f a log'
    | Raise e => Raise e
    end.

Definition lift `{NetUtils} {A : Type} (r : result A) : M A :=
  fun log =>
    match r with
    | Ok a => Ok (a, log)
    | Raise e => Raise e
    end.

Definition raise `{NetUtils} {A : Type} (e : exn) : M A := fun _ => Raise e.

Notation "x <~ m ;; k" := (bindM m (fun x => k))
  (at level 61, m at next level, right associativity).
Notation "' pat <~ m ;; k" := (bindM m (fun x => match x with pat => k end))
  (at level 61, pat pattern, m at next level, right associativity).

(** [self.attr]: the attribute may be missing. *)
Definition getattr `{NetUtils} {A : Type} (attr : option A) : M A :=
  match attr with
  | Some a => ret a
  | None => raise AttributeError
  end.

(** Reading a local variable of the running function. *)
Definition load `{NetUtils} {A : Type} (v : option A) : M A :=
  match v with
  | Some a => ret a
  | None => raise UnboundLocalError
  end.

Definition call_Conv2d `{NetUtils} (level : nat) (m : Conv2d) (x : tensor)
  : M tensor :=
  fun log =>
    let out := Conv2d_forward m x in
    Ok (out, log ++ [CallConv2d level m x out]).

Definition call_VGGNetBlock `{NetUtils} (level : nat) (m : VGGNetBlock)
           (x : tensor) : M tensor :=
  fun log =>
    let out := VGGNetBlock_forward m x in
    Ok (out, log ++ [CallVGGNetBlock level m x out]).

Definition call_CalibratedBackprojectionBlock `{NetUtils} (level : nat)
           (m : CalibratedBackprojectionBlock) (image depth : tensor)
           (coordinates : tensor4) (fused : option tensor)
  : M (tensor * tensor * tensor) :=
  fun log =>
    let out := CalibratedBackprojectionBlock_forward m image depth coordinates fused in
    Ok (out, log ++ [CallCalibratedBackprojectionBlock level m image depth
                       coordinates fused out]).

Definition call_DecoderBlock `{NetUtils} (level : nat) (m : DecoderBlock)
           (x : tensor) (skip : option tensor) (size : option (list nat))
  : M tensor :=
  fun log =>
    let out := DecoderBlock_forward m x skip size in
    Ok (out, log ++ [CallDecoderBlock level m x skip size out]).

(** [assert c] *)
Definition assert (c : bool) : result unit :=
  if c then Ok tt else Raise AssertionError.

(** [a, b, c, d = x.shape] *)
Definition unpack4 (s : list nat) : result (nat * nat * nat * nat) :=
  match s with
  | [a; b; c; d] => Ok (a, b, c, d)
  | _ => Raise ValueError
  end.

(** [n in l] on a list of integers *)
Definition contains (n : nat) (l : list nat) : bool := existsb (Nat.eqb n) l.

(** [l[n]] for a non-negative [n] *)
Definition getitem {A : Type} (l : list A) (n : nat) : result A :=
  match nth_error l n with
  | Some a => Ok a
  | None => Raise IndexError
  end.

(** ** [KBNetEncoder] *)

Module KBNetEncoder.

(** The object: [resolutions_backprojection] and the blocks that [__init__]
    registered; a block that was not registered is a missing attribute. *)
Record t := Make {
  resolutions_backprojection : list nat;
  conv0_image : option Conv2d;
  conv0_depth : option Conv2d;
  calibrated_backprojection1 : option CalibratedBackprojectionBlock;
  conv1_image : option VGGNetBlock;
  conv1_depth : option VGGNetBlock;
  calibrated_backprojection2 : option CalibratedBackprojectionBlock;
  conv2_image : option VGGNetBlock;
  conv2_depth : option VGGNetBlock;
  calibrated_backprojection3 : option CalibratedBackprojectionBlock;
  conv3_image : option VGGNetBlock;
  conv3_depth : option VGGNetBlock;
  calibrated_backprojection4 : option CalibratedBackprojectionBlock;
  conv4_image : option VGGNetBlock;
  conv4_depth : option VGGNetBlock;
  calibrated_backprojection5 : option CalibratedBackprojectionBlock;
  conv5_image : option VGGNetBlock;
  conv5_depth : option VGGNetBlock
}.

(** The arguments of [__init__]. *)
Record config := Config {
  input_channels_image : nat;
  input_channels_depth : nat;
  n_filters_image : list nat;
  n_filters_depth : list nat;
  n_filters_fused : list nat;
  n_convolutions_image : list nat;
  n_convolutions_depth : list nat;
  n_convolutions_fused : list nat;
  cfg_resolutions_backprojection : list nat;
  weight_initializer : string;
  cfg_activation_func : string
}.

(** The default values of the arguments; [resolutions] replaces the default
    [[0, 1, 2]]. *)
Definition default_config (resolutions : list nat) : config :=
  Config 3 1
         [48; 96; 192; 384; 384]
         [16; 32; 64; 128; 128]
         [48; 96; 192; 384; 384]
         [1; 1; 1; 1; 1]
         [1; 1; 1; 1; 1]
         [1; 1; 1; 1; 1]
         resolutions
         "kaiming_uniform" "leaky_relu".

Definition network_depth : nat := 5.

(** The six length assertions, in the order of the source. *)
Definition check_lengths (c : config) : result unit :=
  _ <- assert (length (n_convolutions_image c) =? network_depth)%nat ;;
  _ <- assert (length (n_convolutions_depth c) =? network_depth)%nat ;;
  _ <- assert (length (n_convolutions_fused c) =? network_depth)%nat ;;
  _ <- assert (length (n_filters_image c) =? network_depth)%nat ;;
  _ <- assert (length (n_filters_depth c) =? network_depth)%nat ;;
  assert (length (n_filters_fused c) =? network_depth)%nat.

(** [l[n]] where the assertions have made [n] an index of [l]. *)
Definition item (l : list nat) (n : nat) : nat := nth n l 0%nat.

(** The blocks of level [n] for [n] in 1..4: the text of the source is the
    same for the four levels, up to [n] and the attribute names. *)
Definition level_blocks (c : config) (act : activation) (n : nat)
           (kb_attr image_attr depth_attr : string)
  : option CalibratedBackprojectionBlock * option VGGNetBlock * option VGGNetBlock :=
  let in_channels_image := item (n_filters_image c) (n - 1) in
  let in_channels_depth := item (n_filters_depth c) (n - 1) in
  if contains n (cfg_resolutions_backprojection c) then
    let in_channels_fused :=
      if contains (n - 1) (cfg_resolutions_backprojection c)
      then (item (n_filters_image c) (n - 1) + item (n_filters_fused c) (n - 1))%nat
      else item (n_filters_image c) (n - 1) in
    (Some (MkCalibratedBackprojectionBlock kb_attr
             in_channels_image in_channels_depth in_channels_fused
             (item (n_filters_image c) n) (item (n_filters_depth c) n)
             (item (n_filters_fused c) n)
             (item (n_convolutions_image c) n) (item (n_convolutions_depth c) n)
             (item (n_convolutions_fused c) n)
             (weight_initializer c) act),
     None, None)
  else
    (None,
     Some (MkVGGNetBlock image_attr in_channels_image (item (n_filters_image c) n)
             (item (n_convolutions_image c) n) 2 (weight_initializer c) act),
     Some (MkVGGNetBlock depth_attr in_channels_depth (item (n_filters_depth c) n)
             (item (n_convolutions_depth c) n) 2 (weight_initializer c) act)).

(** [KBNetEncoder.__init__] *)
Definition init `{NetUtils} (c : config) : result t :=
  _ <- check_lengths c ;;
  act <- activation_func (cfg_activation_func c) ;;
  (* Resolution: 1/1 -> 1/2 *)
  let n := 0%nat in
  let '(c0i, c0d, kb1, c1i, c1d) :=
    if contains n (cfg_resolutions_backprojection c) then
      let in_channels_image := item (n_filters_image c) n in
      let in_channels_depth := item (n_filters_depth c) n in
      let in_channels_fused := item (n_filters_image c) n in
      (Some (MkConv2d "conv0_image" (input_channels_image c)
               (item (n_filters_image c) n) 3 1 (weight_initializer c)
               (Some act) false false),
       Some (MkConv2d "conv0_depth" (input_channels_depth c)
               (item (n_filters_depth c) n) 3 1 (weight_initializer c)
               (Some act) false false),
       Some (MkCalibratedBackprojectionBlock "calibrated_backprojection1"
               in_channels_image in_channels_depth in_channels_fused
               (item (n_filters_image c) n) (item (n_filters_depth c) n)
               (item (n_filters_fused c) n)
               (item (n_convolutions_image c) n) (item (n_convolutions_depth c) n)
               (item (n_convolutions_fused c) n)
               (weight_initializer c) act),
       None, None)
    else
      (None, None, None,
       Some (MkVGGNetBlock "conv1_image" (input_channels_image c)
               (item (n_filters_image c) n) (item (n_convolutions_image c) n) 2
               (weight_initializer c) act),
       Some (MkVGGNetBlock "conv1_depth" (input_channels_depth c)
               (item (n_filters_depth c) n) (item (n_convolutions_depth c) n) 2
               (weight_initializer c) act)) in
  (* Resolution: 1/2 -> 1/4 *)
  let '(kb2, c2i, c2d) :=
    level_blocks c act 1 "calibrated_backprojection2" "conv2_image" "conv2_depth" in
  (* Resolution: 1/4 -> 1/8 *)
  let '(kb3, c3i, c3d) :=
    level_blocks c act 2 "calibrated_backprojection3" "conv3_image" "conv3_depth" in
  (* Resolution: 1/8 -> 1/16 *)
  let '(kb4, c4i, c4d) :=
    level_blocks c act 3 "calibrated_backprojection4" "conv4_image" "conv4_depth" in
  (* Resolution: 1/16 -> 1/32 *)
  let '(kb5, c5i, c5d) :=
    level_blocks c act 4 "calibrated_backprojection5" "conv5_image" "conv5_depth" in
  Ok (Make (cfg_resolutions_backprojection c)
           c0i c0d kb1 c1i c1d kb2 c2i c2d kb3 c3i c3d kb4 c4i c4d kb5 c5i c5d).

(** The variables of [forward] that its nested functions capture, before any
    of them is assigned. *)
Definition unbound : cells := Cells None None None None None.

(** Levels 1..4 of [forward]: the text of the source is the same for the four
    levels up to the level [n], the attributes it reads ([kb], [conv_image],
    [conv_depth]) and the names of its variables.  [height] and [width] are
    [n_height<n>] and [n_width<n>]; [image_], [depth_] and [fused_] are the
    streams [conv<n>_image], [conv<n>_depth] and [conv<n>_fused] of the level
    before.  The result is the three streams of this level and its skip
    list. *)
Definition stage `{NetUtils} (self : t) (n : nat)
           (kb : option CalibratedBackprojectionBlock)
           (conv_image conv_depth : option VGGNetBlock)
           (fr : cells) (height width : nat) (intrinsics : list mat3)
           (image_ depth_ : tensor) (fused_ : option tensor)
  : M (tensor * tensor * option tensor * list tensor) :=
  if contains n (resolutions_backprojection self) then
    batch <~ load (n_batch fr) ;;
    height0 <~ load (n_height0 fr) ;;
    width0 <~ load (n_width0 fr) ;;
    intrinsics_n <~ lift (scale_intrinsics fr batch height0 width0 height width
                            intrinsics) ;;
    (* Normalized camera coordinates *)
    batch <~ load (n_batch fr) ;;
    coordinates_n <~ lift (camera_coordinates fr batch height width intrinsics_n) ;;
    (* Calibrated backprojection *)
    block <~ getattr kb ;;
    '(image_out, depth_out, fused_out) <~
      call_CalibratedBackprojectionBlock n block image_ depth_ coordinates_n fused_ ;;
    ret (image_out, depth_out, Some fused_out, [fused_out; depth_out])
  else
    block <~ getattr conv_image ;;
    image_out <~
      match fused_ with
      | Some fused => call_VGGNetBlock n block fused
      | None => call_VGGNetBlock n block image_
      end ;;
    block <~ getattr conv_depth ;;
    depth_out <~ call_VGGNetBlock n block depth_ ;;
    ret (image_out, depth_out, None, [image_out; depth_out]).

(** [layers[-1], layers[0:-1]] *)
Definition split_last `{NetUtils} (layers : list tensor)
  : result (tensor * list tensor) :=
  match rev layers with
  | [] => Raise IndexError
  | latent :: _ => Ok (latent, removelast layers)
  end.

(** [KBNetEncoder.forward] *)
Definition forward `{NetUtils} (self : t) (image depth : tensor)
           (intrinsics : list mat3) : M (tensor * list tensor) :=
  let layers : list tensor := [] in
  (* Resolution: 1/1 -> 1/2 *)
  '(fr, conv1_image_, conv1_depth_, conv1_fused_, skips1) <~
    (if contains 0 (resolutions_backprojection self) then
       '(batch, _, height0, width0) <~ lift (unpack4 (shape image)) ;;
       let fr := Cells (Some batch) (Some height0) (Some width0) None None in
       (* Normalized camera coordinates *)
       coordinates0 <~ lift (camera_coordinates fr batch height0 width0 intrinsics) ;;
       (* Feature extractors *)
       block <~ getattr (conv0_image self) ;;
       conv0_image_ <~ call_Conv2d 0 block image ;;
       block <~ getattr (conv0_depth self) ;;
       conv0_depth_ <~ call_Conv2d 0 block depth ;;
       (* Calibrated backprojection *)
       block <~ getattr (calibrated_backprojection1 self) ;;
       '(image_out, depth_out, fused_out) <~
         call_CalibratedBackprojectionBlock 0 block conv0_image_ conv0_depth_
           coordinates0 None ;;
       ret (fr, image_out, depth_out, Some fused_out, [fused_out; depth_out])
     else
       block <~ getattr (conv1_image self) ;;
       image_out <~ call_VGGNetBlock 0 block image ;;
       block <~ getattr (conv1_depth self) ;;
       depth_out <~ call_VGGNetBlock 0 block depth ;;
       ret (unbound, image_out, depth_out, None, [image_out; depth_out])) ;;
  (* Store as skip connection *)
  let layers := layers ++ [cat skips1] in
  (* Resolution: 1/2 -> 1/4 *)
  '(_, _, height1, width1) <~ lift (unpack4 (shape conv1_image_)) ;;
  let fr := Cells (n_batch fr) (n_height0 fr) (n_width0 fr)
                  (Some height1) (Some width1) in
  '(conv2_image_, conv2_depth_, conv2_fused_, skips2) <~
    stage self 1 (calibrated_backprojection2 self) (conv2_image self)
      (conv2_depth self) fr height1 width1 intrinsics
      conv1_image_ conv1_depth_ conv1_fused_ ;;
  let layers := layers ++ [cat skips2] in
  (* Resolution: 1/4 -> 1/8 *)
  '(_, _, height2, width2) <~ lift (unpack4 (shape conv2_image_)) ;;
  '(conv3_image_, conv3_depth_, conv3_fused_, skips3) <~
    stage self 2 (calibrated_backprojection3 self) (conv3_image self)
      (conv3_depth self) fr height2 width2 intrinsics
      conv2_image_ conv2_depth_ conv2_fused_ ;;
  let layers := layers ++ [cat skips3] in
  (* Resolution: 1/8 -> 1/16 *)
  '(_, _, height3, width3) <~ lift (unpack4 (shape conv3_image_)) ;;
  '(conv4_image_, conv4_depth_, conv4_fused_, skips4) <~
    stage self 3 (calibrated_backprojection4 self) (conv4_image self)
      (conv4_depth self) fr height3 width3 intrinsics
      conv3_image_ conv3_depth_ conv3_fused_ ;;
  let layers := layers ++ [cat skips4] in
  (* Resolution: 1/16 -> 1/32; the source calls
     [self.calibrated_backprojection4] here *)
  '(_, _, height4, width4) <~ lift (unpack4 (shape conv4_image_)) ;;
  '(conv5_image_, conv5_depth_, conv5_fused_, skips5) <~
    stage self 4 (calibrated_backprojection4 self) (conv5_image self)
      (conv5_depth self) fr height4 width4 intrinsics
      conv4_image_ conv4_depth_ conv4_fused_ ;;
  let layers := layers ++ [cat skips5] in
  lift (split_last layers).

End KBNetEncoder.

(** ** [MultiScaleDecoder] *)

(** [p in s] on strings *)
Fixpoint is_substring (p s : string) : bool :=
  if String.prefix p s then true
  else match s with
       | EmptyString => false
       | String _ s' => is_substring p s'
       end.

(** [l[n]] for any integer [n]: a negative index counts from the end. *)
Definition getitem_py {A : Type} (l : list A) (n : Z) : result A :=
  let len := Z.of_nat (length l) in
  if ((0 <=? n) && (n <? len))%Z then getitem l (Z.to_nat n)
  else if ((- len <=? n) && (n <? 0))%Z then getitem l (Z.to_nat (len + n))
  else Raise IndexError.

(** [s[-2:]] *)
Definition last2 {A : Type} (s : list A) : list A := skipn (length s - 2) s.

Module MultiScaleDecoder.

Record t := Make {
  n_resolution : nat;
  output_func : string;
  deconv6 : option DecoderBlock;
  deconv5 : option DecoderBlock;
  deconv4 : option DecoderBlock;
  deconv3 : option DecoderBlock;
  output3 : option Conv2d;
  deconv2 : option DecoderBlock;
  output2 : option Conv2d;
  deconv1 : DecoderBlock;
  output1 : option Conv2d;
  deconv0 : DecoderBlock;
  output0 : Conv2d
}.

(** The arguments of [__init__]. *)
Record config := Config {
  input_channels : nat;
  output_channels : nat;
  cfg_n_resolution : nat;
  n_filters : list nat;
  n_skips : list nat;
  weight_initializer : string;
  cfg_activation_func : string;
  cfg_output_func : string;
  use_batch_norm : bool;
  use_instance_norm : bool;
  deconv_type : string
}.

Definition mk_deconv (c : config) (act : activation) (attr : string)
           (chans : nat * nat * nat) : DecoderBlock :=
  let '(in_channels, skip_channels, out_channels) := chans in
  MkDecoderBlock attr in_channels skip_channels out_channels
                 (weight_initializer c) act (use_batch_norm c)
                 (use_instance_norm c) (deconv_type c).

Definition mk_output (c : config) (act : option activation) (attr : string)
           (chans : nat * nat * nat) : Conv2d :=
  let '(_, _, out_channels) := chans in
  MkConv2d attr out_channels (output_channels c) 3 1 (weight_initializer c)
           act false false.

(** [[n_filters[filter_idx - 1], n_skips[filter_idx], n_filters[filter_idx]]] *)
Definition next_channels (c : config) (filter_idx : nat)
  : result (nat * nat * nat) :=
  a <- getitem (n_filters c) (filter_idx - 1) ;;
  b <- getitem (n_skips c) filter_idx ;;
  d <- getitem (n_filters c) filter_idx ;;
  Ok (a, b, d).

(** [skip_channels = skip_channels + output_channels] when [cond]. *)
Definition widen_skip (c : config) (cond : bool) (chans : nat * nat * nat)
  : nat * nat * nat :=
  let '(in_channels, skip_channels, out_channels) := chans in
  if cond then (in_channels, skip_channels + output_channels c, out_channels)
  else chans.

(** A level that only has a decoder block (levels 6, 5, 4). *)
Definition init_plain (c : config) (act : activation) (present : bool)
           (attr : string) (filter_idx : nat) (chans : nat * nat * nat)
  : result (option DecoderBlock * nat * (nat * nat * nat)) :=
  if present then
    let block := mk_deconv c act attr chans in
    let filter_idx := filter_idx + 1 in
    chans <- next_channels c filter_idx ;;
    Ok (Some block, filter_idx, chans)
  else Ok (None, filter_idx, chans).

(** [MultiScaleDecoder.__init__] *)
Definition init `{NetUtils} (c : config) : result t :=
  let network_depth := length (n_filters c) in
  _ <- assert (network_depth <? 8) ;;
  _ <- assert ((0 <? cfg_n_resolution c) && (cfg_n_resolution c <? network_depth)) ;;
  let self_n_resolution := cfg_n_resolution c in
  let self_output_func := cfg_output_func c in
  act <- activation_func (cfg_activation_func c) ;;
  out_act <- activation_func (cfg_output_func c) ;;
  (* Upsampling from lower to full resolution requires multi-scale *)
  let self_n_resolution :=
    if is_substring "upsample" self_output_func && (self_n_resolution <? 2)
    then 2 else self_n_resolution in
  let filter_idx := 0 in
  skip_channels <- getitem (n_skips c) filter_idx ;;
  out_channels <- getitem (n_filters c) filter_idx ;;
  let chans := (input_channels c, skip_channels, out_channels) in
  (* Resolution 1/128 -> 1/64 *)
  '(d6, filter_idx, chans) <-
    init_plain c act (6 <? network_depth) "deconv6" filter_idx chans ;;
  (* Resolution 1/64 -> 1/32 *)
  '(d5, filter_idx, chans) <-
    init_plain c act (5 <? network_depth) "deconv5" filter_idx chans ;;
  (* Resolution 1/32 -> 1/16 *)
  '(d4, filter_idx, chans) <-
    init_plain c act (4 <? network_depth) "deconv4" filter_idx chans ;;
  (* Resolution 1/16 -> 1/8 *)
  '(d3, o3, filter_idx, chans) <-
    (if 3 <? network_depth then
       let block := mk_deconv c act "deconv3" chans in
       let head := if 3 <? self_n_resolution
                   then Some (mk_output c None "output3" chans) else None in
       (* Resolution 1/8 -> 1/4 *)
       let filter_idx := filter_idx + 1 in
       chans <- next_channels c filter_idx ;;
       Ok (Some block, head, filter_idx,
           widen_skip c (3 <? self_n_resolution) chans)
     else Ok (None, None, filter_idx, chans)) ;;
  '(d2, o2, filter_idx, chans) <-
    (if 2 <? network_depth then
       let block := mk_deconv c act "deconv2" chans in
       let head := if 2 <? self_n_resolution
                   then Some (mk_output c (Some out_act) "output2" chans) else None in
       (* Resolution 1/4 -> 1/2 *)
       let filter_idx := filter_idx + 1 in
       chans <- next_channels c filter_idx ;;
       Ok (Some block, head, filter_idx,
           widen_skip c (2 <? self_n_resolution) chans)
     else Ok (None, None, filter_idx, chans)) ;;
  let d1 := mk_deconv c act "deconv1" chans in
  let o1 := if 1 <? self_n_resolution
            then Some (mk_output c (Some out_act) "output1" chans) else None in
  (* Resolution 1/2 -> 1/1 *)
  let filter_idx := filter_idx + 1 in
  chans <- next_channels c filter_idx ;;
  let chans := widen_skip c (1 <? self_n_resolution) chans in
  let d0 := mk_deconv c act "deconv0" chans in
  let o0 := mk_output c (Some out_act) "output0" chans in
  Ok (Make self_n_resolution self_output_func d6 d5 d4 d3 o3 d2 o2 d1 o1 d0 o0).

(** Calling an attribute that holds [None]. *)
Definition callable `{NetUtils} {A : Type} (attr : option A) : M A :=
  match attr with
  | Some a => ret a
  | None => raise TypeError
  end.

(** [skips[n - 1].shape[-2:]] *)
Definition skip_size `{NetUtils} (skips : list (option tensor)) (n : Z)
  : M (list nat) :=
  s <~ lift (getitem_py skips (n - 1)) ;;
  match s with
  | Some s => ret (last2 (shape s))
  | None => raise AttributeError
  end.

(** The upsampling of the last output: to the size of the next skip
    connection when there is one ([n > 0]), by a factor of two otherwise. *)
Definition upsample `{NetUtils} (skips : list (option tensor)) (n : Z)
           (output : tensor) : M tensor :=
  if (0 <? n)%Z then
    size <~ skip_size skips n ;;
    ret (interpolate_size output size)
  else ret (interpolate_scale output 2).

(** A level that only has a decoder block (levels 6, 5, 4):
    [layers.append(block(layers[-1], skips[n])); n = n - 1]. *)
Definition forward_plain `{NetUtils} (level : nat) (block : option DecoderBlock)
           (skips : list (option tensor)) (top : tensor) (n : Z)
  : M (tensor * Z) :=
  match block with
  | Some block =>
      skip <~ lift (getitem_py skips n) ;;
      top <~ call_DecoderBlock level block top skip None ;;
      ret (top, (n - 1)%Z)
  | None => ret (top, n)
  end.

(** The skip connection of levels 2 and 1: [skips[n]] concatenated with the
    upsampled output of the level before when there is one. *)
Definition skip_with_output `{NetUtils} (skips : list (option tensor)) (n : Z)
           (with_output : bool) (upsample_output : option tensor)
  : M (option tensor) :=
  s <~ lift (getitem_py skips n) ;;
  match s with
  | Some s =>
      if with_output then
        up <~ load upsample_output ;;
        ret (Some (cat [s; up]))
      else ret (Some s)
  | None => ret None
  end.

(** The output of levels 3, 2 and 1, present when [n_resolution] is above
    the level [k]:
    [output<k> = self.output<k>(layers[-1]); outputs.append(output<k>)]
    and the upsampling of [outputs[-1]] into [upsample_output<k>]. *)
Definition forward_output `{NetUtils} (self : t) (k : nat) (head : option Conv2d)
           (skips : list (option tensor)) (n : Z) (top : tensor)
           (outputs : list tensor) : M (list tensor * option tensor) :=
  if k <? n_resolution self then
    head <~ callable head ;;
    output <~ call_Conv2d k head top ;;
    up <~ upsample skips n output ;;
    ret (outputs ++ [output], Some up)
  else ret (outputs, None).

(** [MultiScaleDecoder.forward]; [top] is [layers[-1]]. *)
Definition forward `{NetUtils} (self : t) (x : tensor)
           (skips : list (option tensor)) (shape_ : option (list nat))
  : M (list tensor) :=
  let top := x in
  let outputs : list tensor := [] in
  (* Start at the end and walk backwards through skip connections *)
  let n := (Z.of_nat (length skips) - 1)%Z in
  (* Resolution 1/128 -> 1/64 *)
  '(top, n) <~ forward_plain 6 (deconv6 self) skips top n ;;
  (* Resolution 1/64 -> 1/32 *)
  '(top, n) <~ forward_plain 5 (deconv5 self) skips top n ;;
  (* Resolution 1/32 -> 1/16 *)
  '(top, n) <~ forward_plain 4 (deconv4 self) skips top n ;;
  (* Resolution 1/16 -> 1/8 *)
  '(top, outputs, upsample_output3, n) <~
    match deconv3 self with
    | Some block =>
        skip <~ lift (getitem_py skips n) ;;
        top <~ call_DecoderBlock 3 block top skip None ;;
        '(outputs, upsample_output3) <~
          forward_output self 3 (output3 self) skips n top outputs ;;
        ret (top, outputs, upsample_output3, (n - 1)%Z)
    | None => ret (top, outputs, None, n)
    end ;;
  (* Resolution 1/8 -> 1/4 *)
  '(top, outputs, upsample_output2, n) <~
    match deconv2 self with
    | Some block =>
        skip <~ skip_with_output skips n (3 <? n_resolution self) upsample_output3 ;;
        top <~ call_DecoderBlock 2 block top skip None ;;
        '(outputs, upsample_output2) <~
          forward_output self 2 (output2 self) skips n top outputs ;;
        ret (top, outputs, upsample_output2, (n - 1)%Z)
    | None => ret (top, outputs, None, n)
    end ;;
  (* Resolution 1/4 -> 1/2 *)
  skip <~ skip_with_output skips n (2 <? n_resolution self) upsample_output2 ;;
  top <~ call_DecoderBlock 1 (deconv1 self) top skip None ;;
  '(outputs, upsample_output1) <~
    forward_output self 1 (output1 self) skips n top outputs ;;
  (* Resolution 1/2 -> 1/1 *)
  let n := (n - 1)%Z in
  output0_ <~
    (if is_substring "upsample" (output_func self) then load upsample_output1
     else
       top <~
         (if 1 <? n_resolution self then
            s <~ lift (getitem_py skips n) ;;
            skip <~
              match s with
              | Some s =>
                  if (n =? 0)%Z then
                    (* If there is skip connection at layer 0 *)
                    up <~ load upsample_output1 ;;
                    ret (cat [s; up])
                  else load upsample_output1
              | None => load upsample_output1
              end ;;
            call_DecoderBlock 0 (deconv0 self) top (Some skip) None
          else
            s <~ lift (getitem_py skips n) ;;
            match s with
            | Some s =>
                if (n =? 0)%Z then
                  call_DecoderBlock 0 (deconv0 self) top (Some s) None
                else
                  match shape_ with
                  | Some size => call_DecoderBlock 0 (deconv0 self) top None
                                   (Some (last2 size))
                  | None => raise TypeError
                  end
            | None =>
                match shape_ with
                | Some size => call_DecoderBlock 0 (deconv0 self) top None
                                 (Some (last2 size))
                | None => raise TypeError
                end
            end) ;;
       call_Conv2d 0 (output0 self) top) ;;
  ret (outputs ++ [output0_]).

End MultiScaleDecoder.

(** ** Numeric blocks

    [PoseDecoder] and [SparseToDensePool] compute on the entries of their
    input, so their tensors are the dense ones.  What the convolutions of
    [net_utils] compute on them, and [net_utils.pose_matrix], are the fields
    of [NumericUtils]. *)

(** An entry that may be not-a-number. *)
Inductive float : Type :=
| Fin (q : Q)
| NaN.

Class NumericUtils := {
  (** a [net_utils.Conv2d] block on a dense tensor *)
  conv2d : Conv2d -> tensor4 -> tensor4;
  (** the rigid transforms that [net_utils.pose_matrix] returns *)
  posemat : Type;
  (** [net_utils.pose_matrix(v, rotation_parameterization=)] *)
  pose_matrix : list (list float) -> string -> result posemat
}.

(** [torch.nn.Sequential] applied to [x]: the layers in order *)
Definition sequential `{NumericUtils} (layers : list Conv2d) (x : tensor4)
  : tensor4 :=
  fold_left (fun y layer => conv2d layer y) layers x.

Definition Qsum (l : list Q) : Q := fold_right Qplus 0%Q l.

(** The mean of the entries of one H x W map; of no entries it is
    not-a-number. *)
Definition mean2 (m : tensor2) : float :=
  let entries := flat2 m in
  match entries with
  | [] => NaN
  | _ => Fin (Qsum entries / Qnat (length entries))
  end.

(** [torch.mean(x, [2, 3])] on N x C x H x W *)
Definition mean_hw (x : tensor4) : list (list float) := map (map mean2) x.

(** [c * x] on an entry *)
Definition fmul (c : Q) (x : float) : float :=
  match x with
  | Fin q => Fin (c * q)
  | NaN => NaN
  end.


Definition float_is_zerob (x : float) : bool :=
  match x with
  | Fin q => Qeq_bool q 0
  | NaN => false
  end.


Module PoseDecoder.

Record t := Make {
  rotation_parameterization : string;
  (** the layers of [self.conv]: one block, or the blocks of the
      [Sequential] *)
  conv : list Conv2d
}.

Record config := Config {
  cfg_rotation_parameterization : string;
  input_channels : nat;
  n_filters : list nat;
  weight_initializer : string;
  cfg_activation_func : string;
  use_batch_norm : bool;
  use_instance_norm : bool
}.

(** The name of the layer at position [idx] of the [Sequential]. *)
Definition layer_name (idx : nat) : string :=
  String.append "conv." (NilZero.string_of_uint (Nat.to_uint idx)).

(** The loop [for out_channels in n_filters] of [__init__]; [idx] is the
    position of the layer in the [Sequential]. *)
Fixpoint init_layers (c : config) (act : activation) (idx : nat)
         (in_channels : nat) (filters : list nat) : list Conv2d * nat * nat :=
  match filters with
  | [] => ([], idx, in_channels)
  | out_channels :: filters' =>
      let conv := MkConv2d (layer_name idx) in_channels out_channels 3 2
                           (weight_initializer c) (Some act)
                           (use_batch_norm c) (use_instance_norm c) in
      let '(layers, idx', last_channels) :=
        init_layers c act (S idx) out_channels filters' in
      (conv :: layers, idx', last_channels)
  end.

(** [PoseDecoder.__init__] *)
Definition init `{NetUtils} (c : config) : result t :=
  act <- activation_func (cfg_activation_func c) ;;
  if 0 <? length (n_filters c) then
    let '(layers, idx, in_channels) :=
      init_layers c act 0 (input_channels c) (n_filters c) in
    let conv := MkConv2d (layer_name idx) in_channels 6 1 1 (weight_initializer c)
                         None false false in
    Ok (Make (cfg_rotation_parameterization c) (layers ++ [conv]))
  else
    Ok (Make (cfg_rotation_parameterization c)
             [MkConv2d "conv" (input_channels c) 6 1 1 (weight_initializer c)
                       None false false]).

(** The 6-vector of [forward]: [0.01 * torch.mean(self.conv(x), [2, 3])]. *)
Definition dof `{NumericUtils} (self : t) (x : tensor4) : list (list float) :=
  let conv_output := sequential (conv self) x in
  let pose_mean := mean_hw conv_output in
  map (map (fmul (1 # 100))) pose_mean.

(** [PoseDecoder.forward] *)
Definition forward `{NumericUtils} (self : t) (x : tensor4) : result posemat :=
  pose_matrix (dof self x) (rotation_parameterization self).

End PoseDecoder.

(** ** [SparseToDensePool] *)

(** [torch.nn.MaxPool2d(kernel_size=, stride=, padding=)] *)
Record MaxPool2d := MkMaxPool2d {
  kernel_size : nat;
  stride : nat;
  padding : nat
}.

(** The entries of [l] at the positions [start - p, ..., start - p + k - 1]
    that exist.  The others are the implicit padding of the pooling, which is
    minus infinity and so never the maximum. *)
Definition under_kernel {A : Type} (k p start : nat) (l : list A) : list A :=
  flat_map (fun d => if (start + d <? p) then []
                     else match nth_error l (start + d - p) with
                          | Some a => [a]
                          | None => []
                          end)
           (seq 0 k).

(** The entries of the map under the kernel whose output position is
    [(i, j)]. *)
Definition window (pool : MaxPool2d) (m : tensor2) (i j : nat) : list Q :=
  flat_map (under_kernel (kernel_size pool) (padding pool) (j * stride pool))
           (under_kernel (kernel_size pool) (padding pool) (i * stride pool) m).

(** The maximum of the entries of a window.  The checks of [maxpool2d] leave
    no window without an entry. *)
Definition max_entries (w : list Q) : Q :=
  match w with
  | [] => 0%Q
  | v :: w' => fold_left Qmax w' v
  end.

(** The pooling on one H x W map.  torch refuses a kernel or stride of zero,
    a padding above half the kernel, an input without entries and an input
    smaller than the kernel. *)
Definition maxpool2d (pool : MaxPool2d) (m : tensor2) : result tensor2 :=
  let k := kernel_size pool in
  let p := padding pool in
  let height := length m in
  let width := length (hd [] m) in
  if (k =? 0) || (stride pool =? 0) || (k / 2 <? p)
     || (height =? 0) || (width =? 0)
     || (height + 2 * p <? k) || (width + 2 * p <? k)
  then Raise RuntimeError
  else
    Ok (map (fun i => map (fun j => max_entries (window pool m i j))
                          (seq 0 ((width + 2 * p - k) / stride pool + 1)))
            (seq 0 ((height + 2 * p - k) / stride pool + 1))).

(** [pool(x)] on N x C x H x W *)
Definition MaxPool2d_forward (pool : MaxPool2d) (x : tensor4) : result tensor4 :=
  mapM (mapM (maxpool2d pool)) x.

Definition map4 (f : Q -> Q) (x : tensor4) : tensor4 :=
  map (map (map (map f))) x.

(** The size of the result of an element-wise operation on sizes [a] and
    [b]. *)
Definition broadcast_dim (a b : nat) : result nat :=
  if a =? b then Ok a
  else if a =? 1 then Ok b
  else if b =? 1 then Ok a
  else Raise RuntimeError.

(** A dimension of size one is repeated [n] times; any other already has
    size [n]. *)
Definition expand {A : Type} (n : nat) (l : list A) : list A :=
  match l with
  | [a] => repeat a n
  | _ => l
  end.

(** [torch.where(z_pool == 999, torch.zeros_like(z), z_pool)] on one map *)
Definition where_sentinel (z_pool z : tensor2) : result tensor2 :=
  height <- broadcast_dim (length z_pool) (length z) ;;
  width <- broadcast_dim (length (hd [] z_pool)) (length (hd [] z)) ;;
  Ok (map (fun row => map (fun v => if Qeq_bool v 999 then 0%Q else v)
                          (expand width row))
          (expand height z_pool)).

(** [torch.cat(ts, dim=1)] on dense tensors: the batch and map sizes must
    agree, and there must be a tensor. *)
Definition dims (t : tensor4) : nat * (nat * nat) :=
  (length t, (length (hd [] (hd [] t)), length (hd [] (hd [] (hd [] t))))).

Definition dims_eqb (a b : nat * (nat * nat)) : bool :=
  (fst a =? fst b) && (fst (snd a) =? fst (snd b)) && (snd (snd a) =? snd (snd b)).

Definition cat_channels (ts : list tensor4) : result tensor4 :=
  match ts with
  | [] => Raise RuntimeError
  | t0 :: rest =>
      if forallb (fun t => dims_eqb (dims t) (dims t0)) rest
      then Ok (fold_left (fun acc t => map (fun '(a, b) => a ++ b) (combine acc t))
                         rest t0)
      else Raise RuntimeError
  end.

Module SparseToDensePool.

Record t := Make {
  min_pool_sizes : list nat;
  max_pool_sizes : list nat;
  min_pools : list MaxPool2d;
  max_pools : list MaxPool2d;
  len_pool_sizes : nat;
  pool_convs : list Conv2d;
  conv : Conv2d
}.

Record config := Config {
  input_channels : nat;
  cfg_min_pool_sizes : list nat;
  cfg_max_pool_sizes : list nat;
  n_filter : nat;
  n_convolution : nat;
  weight_initializer : string;
  cfg_activation_func : string
}.

Definition layer_name (idx : nat) : string :=
  String.append "pool_convs." (NilZero.string_of_uint (Nat.to_uint idx)).

(** The loop [for n in range(n_convolution)] of [__init__], from [idx] on. *)
Fixpoint init_pool_convs (c : config) (act : activation) (count idx : nat)
         (in_channels : nat) : list Conv2d :=
  match count with
  | O => []
  | S count' =>
      MkConv2d (layer_name idx) in_channels (n_filter c) 1 1
               (weight_initializer c) (Some act) false false
        :: init_pool_convs c act count' (S idx) (n_filter c)
  end.

(** [SparseToDensePool.__init__] *)
Definition init `{NetUtils} (c : config) : result t :=
  act <- activation_func (cfg_activation_func c) ;;
  let min_sizes := filter (fun s => 1 <? s) (cfg_min_pool_sizes c) in
  let max_sizes := filter (fun s => 1 <? s) (cfg_max_pool_sizes c) in
  (* Construct min pools *)
  let mins := map (fun s => MkMaxPool2d s 1 (s / 2)) min_sizes in
  (* Construct max pools *)
  let maxs := map (fun s => MkMaxPool2d s 1 (s / 2)) max_sizes in
  let len := length min_sizes + length max_sizes in
  let in_channels := length min_sizes + length max_sizes in
  let convs := init_pool_convs c act (n_convolution c) 0 in_channels in
  let in_channels := n_filter c + input_channels c in
  Ok (Make min_sizes max_sizes mins maxs len convs
           (MkConv2d "conv" in_channels (n_filter c) 3 1 (weight_initializer c)
                     (Some act) false false)).

(** [z = torch.unsqueeze(x[:, 0, ...], dim=1)] *)
Definition input_depth (x : tensor4) : result tensor4 :=
  mapM (fun sample => channel <- getitem sample 0 ;; Ok [channel]) x.

(** One turn of the first loop of [forward]. *)
Definition min_pool_stage (pool : MaxPool2d) (z : tensor4) : result tensor4 :=
  (* Set flag (999) for any zeros and max pool on -z then revert the values *)
  pooled <- MaxPool2d_forward pool
              (map4 (fun v => if Qeq_bool v 0 then (- (999) * 1)%Q else (- v)%Q) z) ;;
  let z_pool := map4 Qopp pooled in
  (* Remove any 999 from the results *)
  zipM (zipM where_sentinel) z_pool z.

(** One turn of the second loop of [forward]. *)
Definition max_pool_stage (pool : MaxPool2d) (z : tensor4) : result tensor4 :=
  MaxPool2d_forward pool z.

(** [SparseToDensePool.forward] *)
Definition forward `{NumericUtils} (self : t) (x : tensor4) : result tensor4 :=
  (* Input depth *)
  z <- input_depth x ;;
  (* Use min and max pooling to densify and increase receptive field *)
  mins <- mapM (fun '(pool, s) => min_pool_stage pool z)
               (combine (min_pools self) (min_pool_sizes self)) ;;
  maxs <- mapM (fun '(pool, s) => max_pool_stage pool z)
               (combine (max_pools self) (max_pool_sizes self)) ;;
  (* Stack max and minpools into pyramid *)
  pool_pyramid <- cat_channels (mins ++ maxs) ;;
  (* Learn weights for different kernel sizes, and near and far structures *)
  let pool_convs_ := sequential (pool_convs self) pool_pyramid in
  pool_convs_ <- cat_channels [pool_convs_; x] ;;
  Ok (conv2d (conv self) pool_convs_).

(** The words of the specification for one output entry of a min-pool stage:
    the minimum of the nonzero entries of the window, and zero when the
    window has no nonzero entry. *)
Definition min_nonzero (w : list Q) : Q :=
  match filter (fun v => negb (Qeq_bool v 0)) w with
  | [] => 0%Q
  | v :: w' => fold_left Qmin w' v
  end.

End SparseToDensePool.

(** ** Observations on the log of calls *)

Section Observers.

Context `{NetUtils}.

(** The tensor fed to the image path of level [n]: the input of the level's
    image block, or the [image] argument of its backprojection block. *)
Fixpoint image_path_input (n : nat) (log : list event) : option tensor :=
  match log with
  | [] => None
  | CallVGGNetBlock l _ x _ :: log' =>
      if l =? n then Some x else image_path_input n log'
  | CallCalibratedBackprojectionBlock l _ image _ _ _ _ :: log' =>
      if l =? n then Some image else image_path_input n log'
  | _ :: log' => image_path_input n log'
  end.

(** The image stream that level [n] produced. *)
Fixpoint image_output (n : nat) (log : list event) : option tensor :=
  match log with
  | [] => None
  | CallVGGNetBlock l _ _ out :: log' =>
      if l =? n then Some out else image_output n log'
  | CallCalibratedBackprojectionBlock l _ _ _ _ _ (image_out, _, _) :: log' =>
      if l =? n then Some image_out else image_output n log'
  | _ :: log' => image_output n log'
  end.

(** The backprojection call of level [n], when the level made one. *)
Fixpoint backprojection_call (n : nat) (log : list event)
  : option (CalibratedBackprojectionBlock * option tensor * (tensor * tensor * tensor)) :=
  match log with
  | [] => None
  | CallCalibratedBackprojectionBlock l m _ _ _ fused out :: log' =>
      if l =? n then Some (m, fused, out) else backprojection_call n log'
  | _ :: log' => backprojection_call n log'
  end.

(** Level [n] was calibrated: it called a backprojection block. *)
Definition is_calibrated (n : nat) (log : list event) : bool :=
  match backprojection_call n log with
  | Some _ => true
  | None => false
  end.

(** The block that the calibration step of level [n] called. *)
Definition block_called (n : nat) (log : list event)
  : option CalibratedBackprojectionBlock :=
  match backprojection_call n log with
  | Some (m, _, _) => Some m
  | None => None
  end.

(** The [fused] argument of the calibration step of level [n]. *)
Definition fused_input (n : nat) (log : list event) : option tensor :=
  match backprojection_call n log with
  | Some (_, fused, _) => fused
  | None => None
  end.

(** The fused stream that level [n] produced; a plain level produces none. *)
Definition fused_output (n : nat) (log : list event) : option tensor :=
  match backprojection_call n log with
  | Some (_, _, (_, _, fused_out)) => Some fused_out
  | None => None
  end.

(** The backprojection blocks that were called, in order. *)
Fixpoint blocks_called (log : list event) : list CalibratedBackprojectionBlock :=
  match log with
  | [] => []
  | CallCalibratedBackprojectionBlock _ m _ _ _ _ _ :: log' => m :: blocks_called log'
  | _ :: log' => blocks_called log'
  end.


End Observers.

(** The claim of the specification on the image path of level [n]: its input
    is the fused output of level [n - 1] when that level was calibrated, and
    its image output otherwise. *)
Definition image_path_rule `{NetUtils} (log : list event) (n : nat) : Prop :=
  image_path_input n log =
  (if is_calibrated (n - 1) log then fused_output (n - 1) log
   else image_output (n - 1) log).

(** ** A symbolic instance of [NetUtils]

    A tensor is the expression of blocks that computed it (the coordinates
    handed to a backprojection block are left out of the expression; the log
    of calls has them).  Its size follows the contract of the blocks. *)

(** Modelled from the spec: the blocks of [net_utils] are not part of the
    sources; their "stride/kernel/channel-shape contract must hold exactly
    as configured".  [out_size k s h] is the size that a convolution of
    kernel [k], stride [s] and padding [k / 2] gives to a side of size [h]. *)
Definition out_size (k s h : nat) : nat := (h + 2 * (k / 2) - k) / s + 1.

Module Sym.

Inductive port : Set := Image | Depth | Fused.

Unset Elimination Schemes.

Inductive term : Type :=
| Input (name : string) (size : list nat)
| ConvOut (m : Conv2d) (x : term)
| VGGOut (m : VGGNetBlock) (x : term)
| KBOut (p : port) (m : CalibratedBackprojectionBlock) (image depth : term)
        (fused : option term)
| Cat (xs : list term)
| DecOut (m : DecoderBlock) (x : term) (skip : option term)
         (size : option (list nat))
| Resize (x : term) (size : list nat)
| Upscale (x : term) (factor : nat).

Set Elimination Schemes.

Fixpoint size_of (t : term) : list nat :=
  match t with
  | Input _ size => size
  | ConvOut m x =>
      match size_of x with
      | [n; _; h; w] =>
          [n; conv_out_channels m;
           out_size (conv_kernel_size m) (conv_stride m) h;
           out_size (conv_kernel_size m) (conv_stride m) w]
      | s => s
      end
  | VGGOut m x =>
      match size_of x with
      | [n; _; h; w] =>
          [n; vgg_out_channels m; out_size 3 (vgg_stride m) h;
           out_size 3 (vgg_stride m) w]
      | s => s
      end
  | KBOut p m image depth _ =>
      match size_of (match p with Depth => depth | _ => image end) with
      | [n; _; h; w] =>
          [n; match p with
              | Image => kb_n_filter_image m
              | Depth => kb_n_filter_depth m
              | Fused => kb_n_filter_fused m
              end;
           out_size 3 2 h; out_size 3 2 w]
      | s => s
      end
  | Cat xs =>
      match xs with
      | [] => []
      | x :: rest =>
          match size_of x with
          | [n; c; h; w] =>
              [n;
               c + (fix channels (l : list term) : nat :=
                      match l with
                      | [] => 0
                      | y :: l' => nth 1 (size_of y) 0 + channels l'
                      end) rest;
               h; w]
          | s => s
          end
      end
  | DecOut m x skip size =>
      match size_of x with
      | [n; _; h; w] =>
          match size, skip with
          | Some [h'; w'], _ => [n; dec_out_channels m; h'; w']
          | _, Some s =>
              match size_of s with
              | [_; _; h'; w'] => [n; dec_out_channels m; h'; w']
              | _ => [n; dec_out_channels m; 2 * h; 2 * w]
              end
          | _, None => [n; dec_out_channels m; 2 * h; 2 * w]
          end
      | s => s
      end
  | Resize x size =>
      match size_of x, size with
      | [n; c; _; _], [h; w] => [n; c; h; w]
      | s, _ => s
      end
  | Upscale x factor =>
      match size_of x with
      | [n; c; h; w] => [n; c; factor * h; factor * w]
      | s => s
      end
  end.

(** Modelled from the spec: [net_utils.activation_func] "maps a recognized
    name {leaky_relu, linear, upsample..., ...} to a callable transform;
    unrecognized names are a configuration error". *)
Definition known_activation (name : string) : result activation :=
  if String.eqb name "leaky_relu" || String.eqb name "linear"
     || String.prefix "upsample" name
  then Ok (ActivationFunc name)
  else Raise ValueError.

Definition net : NetUtils :=
  {| tensor := term;
     shape := size_of;
     cat := Cat;
     activation_func := known_activation;
     Conv2d_forward := ConvOut;
     VGGNetBlock_forward := VGGOut;
     CalibratedBackprojectionBlock_forward := fun m image depth coordinates fused =>
       (KBOut Image m image depth fused,
        KBOut Depth m image depth fused,
        KBOut Fused m image depth fused);
     DecoderBlock_forward := DecOut;
     interpolate_size := Resize;
     interpolate_scale := Upscale |}.

End Sym.

(** ** Two instances of [NumericUtils]

    A convolution block whose kernel copies the first input channel, taken at
    every [stride]-th position, into each output channel, and adds [bias]
    (an additive term such as a bias, or the shift of the batch
    normalisation that [use_batch_norm] asks for). *)

Module Toy.

(** The entries of [l] at the positions 0, [s], 2[s], ... *)
Definition every {A : Type} (s : nat) (l : list A) : list A :=
  flat_map (fun i => match nth_error l (i * s) with
                     | Some a => [a]
                     | None => []
                     end)
           (seq 0 ((length l + s - 1) / s)).

(** A convolution block that reads the first channel of its input at the
    positions of its stride, and, when it normalizes ([use_batch_norm]),
    adds the shift of its normalization. *)
Definition conv (shift : Q) (m : Conv2d) (x : tensor4) : tensor4 :=
  let beta := if conv_use_batch_norm m then shift else 0%Q in
  map (fun sample =>
         repeat (map (fun row => map (fun v => (v + beta)%Q)
                                     (every (conv_stride m) row))
                     (every (conv_stride m) (hd [] sample)))
                (conv_out_channels m))
      x.





End Toy.

(** * The vocabulary of the properties *)

(** ** Geometry *)

(** The value that a lookup outside a batch of matrices falls back on. *)
Definition mat3_zero : mat3 := Mat3 0 0 0 0 0 0 0 0 0.

(** A matrix that [torch.inverse] inverts: its determinant is not zero. *)
Definition invertible (k : mat3) : Prop := ~ (det3 k == 0)%Q.

(** The inverse that [inverse1] returns. *)
Definition inv3 (k : mat3) : mat3 := mat3_smul (/ det3 k) (adjugate k).

(** The three rows of [matmul1]. *)
Definition rows (k : mat3) (r0 r1 r2 : list Q) : tensor2 :=
  [ map3 (fun a b c => m00 k * a + m01 k * b + m02 k * c)%Q r0 r1 r2;
    map3 (fun a b c => m10 k * a + m11 k * b + m12 k * c)%Q r0 r1 r2;
    map3 (fun a b c => m20 k * a + m21 k * b + m22 k * c)%Q r0 r1 r2 ].

(** The three channels of the pixel grid, as flat lists. *)
Definition grid_x (height width : nat) : list Q :=
  concat (map (fun y : nat => map (fun x => Qnat x) (seq 0 width)) (seq 0 height)).

Definition grid_y (height width : nat) : list Q :=
  concat (map (fun y : nat => map (fun x : nat => Qnat y) (seq 0 width)) (seq 0 height)).

Definition grid_1 (height width : nat) : list Q :=
  concat (map (fun y : nat => map (fun x : nat => 1%Q) (seq 0 width)) (seq 0 height)).

(** Intrinsics with a focal length of 500 pixels and the principal point at
    the centre of a 256 x 256 image. *)
Definition K_example : mat3 := Mat3 500 0 128 0 500 128 0 0 1.

(** The variables that [forward] has bound when it rescales the intrinsics
    for level 2 of a 256 x 256 input: the sizes of level 0 and of level 1. *)
Definition frame_256 : cells :=
  Cells (Some 1) (Some 256) (Some 256) (Some 128) (Some 128).

(** "The pinhole camera calibration matrix", "invertible (non-degenerate
    focal lengths)": nothing below the diagonal, and a determinant that is
    not zero. *)
Definition pinhole (k : mat3) : Prop :=
  (m10 k == 0)%Q /\ (m20 k == 0)%Q /\ (m21 k == 0)%Q /\ invertible k.

(** ** [SparseToDensePool] *)

Module SparseToDensePoolSpec.

Import SparseToDensePool.

(** The entries of a depth map that the stage can tell from its flag: zero
    or positive, and below 999. *)
Definition below_flag (v : Q) : Prop := (0 <= v)%Q /\ (v < 999)%Q.

(** A depth map: it has entries, and they are below the flag. *)
Definition depth_map (m : tensor2) : Prop :=
  0 < length m /\ 0 < length (hd [] m) /\ Forall (Forall below_flag) m.

(** What the stage does to one entry before the pooling ([torch.where] on
    [z == 0]) and after it ([torch.where] on [z_pool == 999]). *)
Definition mask (v : Q) : Q := if Qeq_bool v 0 then (- (999) * 1)%Q else (- v)%Q.
Definition unflag (v : Q) : Q := if Qeq_bool v 999 then 0%Q else v.

(** The entries that [min_nonzero] keeps. *)
Definition nonzero (v : Q) : bool := negb (Qeq_bool v 0).

(** The result of the pooling on a map that passes the checks of torch, for
    an odd kernel [2 r + 1], stride one and padding [r]: one entry per entry
    of the map. *)
Definition pooled (pool : MaxPool2d) (m : tensor2) : tensor2 :=
  map (fun i => map (fun j => max_entries (window pool m i j))
                    (seq 0 (length (hd [] m))))
      (seq 0 (length m)).

(** One map of the result of a min-pool stage. *)
Definition min_pooled (pool : MaxPool2d) (m : tensor2) : tensor2 :=
  map (fun i => map (fun j => unflag (- max_entries (map mask (window pool m i j))))
                    (seq 0 (length (hd [] m))))
      (seq 0 (length m)).

(** The default values of the arguments of [__init__], for a one-channel
    input. *)
Definition default_config : config :=
  Config 1 [3; 5; 7; 9] [3; 5; 7; 9] 8 3 "kaiming_uniform" "leaky_relu".

(** The object that [__init__] builds from it. *)
Definition default_pool : t :=
  Make [3; 5; 7; 9] [3; 5; 7; 9]
       [MkMaxPool2d 3 1 1; MkMaxPool2d 5 1 2; MkMaxPool2d 7 1 3; MkMaxPool2d 9 1 4]
       [MkMaxPool2d 3 1 1; MkMaxPool2d 5 1 2; MkMaxPool2d 7 1 3; MkMaxPool2d 9 1 4]
       8
       [MkConv2d "pool_convs.0" 8 8 1 1 "kaiming_uniform"
                 (Some (ActivationFunc "leaky_relu")) false false;
        MkConv2d "pool_convs.1" 8 8 1 1 "kaiming_uniform"
                 (Some (ActivationFunc "leaky_relu")) false false;
        MkConv2d "pool_convs.2" 8 8 1 1 "kaiming_uniform"
                 (Some (ActivationFunc "leaky_relu")) false false]
       (MkConv2d "conv" 9 8 3 1 "kaiming_uniform"
                 (Some (ActivationFunc "leaky_relu")) false false).

(** A pool with one min-pool stage of kernel size 2. *)
Definition even_config : config :=
  Config 1 [2] [3] 8 3 "kaiming_uniform" "leaky_relu".

End SparseToDensePoolSpec.

(** ** [PoseDecoder] *)

Module PoseDecoderSpec.

Import PoseDecoder.


(** The decoder that [__init__] builds from the default values of its
    arguments and the parameterization "axis". *)
Definition default_config : config :=
  Config "axis" 256 [] "kaiming_uniform" "leaky_relu" false false.

Definition default_decoder : t :=
  Make "axis" [MkConv2d "conv" 256 6 1 1 "kaiming_uniform" None false false].

(** A decoder with one block of eight filters before the last one, built
    with [use_batch_norm = True]. *)
Definition norm_config : config :=
  Config "axis" 256 [8] "kaiming_uniform" "leaky_relu" true false.

Definition norm_decoder : t :=
  Make "axis"
       [MkConv2d "conv.0" 256 8 3 2 "kaiming_uniform"
                 (Some (ActivationFunc "leaky_relu")) true false;
        MkConv2d "conv.1" 8 6 1 1 "kaiming_uniform" None false false].

End PoseDecoderSpec.

(** ** [KBNetEncoder] *)

Module KBNetEncoderSpec.

Import KBNetEncoder.

(** The six lists of the configuration have five entries each. *)
Definition all_five (c : config) : Prop :=
  length (n_filters_image c) = 5 /\
  length (n_filters_depth c) = 5 /\
  length (n_filters_fused c) = 5 /\
  length (n_convolutions_image c) = 5 /\
  length (n_convolutions_depth c) = 5 /\
  length (n_convolutions_fused c) = 5.

(** The blocks of a level: the backprojection block when the level is in
    [resolutions_backprojection], the two plain blocks otherwise. *)
Definition registered (res : list nat) (n : nat)
           (kb : option CalibratedBackprojectionBlock)
           (conv_image conv_depth : option VGGNetBlock) : Prop :=
  if contains n res then exists b, kb = Some b
  else exists bi bd, conv_image = Some bi /\ conv_depth = Some bd.

(** The attribute that the calibration step of level [n] reads in
    [forward]. *)
Definition block_read (self : t) (n : nat)
  : option CalibratedBackprojectionBlock :=
  match n with
  | 0 => calibrated_backprojection1 self
  | 1 => calibrated_backprojection2 self
  | 2 => calibrated_backprojection3 self
  | 3 => calibrated_backprojection4 self
  | 4 => calibrated_backprojection4 self
  | _ => None
  end.

Section Contracts.

Context `{NetUtils}.

(** The contract of the blocks on sizes: a convolution block gives its
    output channels and the sizes of its kernel and stride, a backprojection
    block halves the sizes of its streams, and a concatenation adds the
    channels. *)
Definition conv2d_contract : Prop :=
  forall m x n c h w,
    shape x = [n; c; h; w] ->
    shape (Conv2d_forward m x)
    = [n; conv_out_channels m;
       out_size (conv_kernel_size m) (conv_stride m) h;
       out_size (conv_kernel_size m) (conv_stride m) w].

Definition vgg_contract : Prop :=
  forall m x n c h w,
    shape x = [n; c; h; w] ->
    shape (VGGNetBlock_forward m x)
    = [n; vgg_out_channels m; out_size 3 (vgg_stride m) h;
       out_size 3 (vgg_stride m) w].

Definition kb_contract : Prop :=
  forall m image depth coordinates fused image_out depth_out fused_out n c c' h w,
    shape image = [n; c; h; w] ->
    shape depth = [n; c'; h; w] ->
    CalibratedBackprojectionBlock_forward m image depth coordinates fused
    = (image_out, depth_out, fused_out) ->
    shape image_out = [n; kb_n_filter_image m; out_size 3 2 h; out_size 3 2 w] /\
    shape depth_out = [n; kb_n_filter_depth m; out_size 3 2 h; out_size 3 2 w] /\
    shape fused_out = [n; kb_n_filter_fused m; out_size 3 2 h; out_size 3 2 w].

Definition cat_contract : Prop :=
  forall a b n ca cb h w,
    shape a = [n; ca; h; w] ->
    shape b = [n; cb; h; w] ->
    shape (cat [a; b]) = [n; ca + cb; h; w].

Definition stride_contract : Prop :=
  conv2d_contract /\ vgg_contract /\ kb_contract /\ cat_contract.

End Contracts.

(** The flow of the streams into level [n], as [forward] has it. *)
Definition level_flow `{NetUtils} (self : t) (log : list event) (n : nat) : Prop :=
  is_calibrated n log = contains n (resolutions_backprojection self) /\
  image_path_input n log
  = (if is_calibrated n log then image_output (n - 1) log
     else match fused_output (n - 1) log with
          | Some fused => Some fused
          | None => image_output (n - 1) log
          end) /\
  (is_calibrated n log = true ->
   fused_input n log = fused_output (n - 1) log /\
   block_called n log = block_read self n).

(** Inputs of size 4 x 4 and 256 x 256 for the symbolic instance. *)
Definition image4 : Sym.term := Sym.Input "image" [1; 3; 4; 4].
Definition depth4 : Sym.term := Sym.Input "depth" [1; 1; 4; 4].
Definition image256 : Sym.term := Sym.Input "image" [1; 3; 256; 256].
Definition depth256 : Sym.term := Sym.Input "depth" [1; 1; 256; 256].

(** Evaluation of the binds and attribute reads of [forward], in a goal and
    in a hypothesis; the calls of the blocks stay as they are. *)
Ltac run :=
  cbv beta iota zeta delta
      [bindM lift ret raise getattr load unpack4
       call_Conv2d call_VGGNetBlock call_CalibratedBackprojectionBlock
       contains existsb Nat.eqb orb unbound
       n_batch n_height0 n_width0 n_height1 n_width1
       resolutions_backprojection conv0_image conv0_depth
       calibrated_backprojection1 conv1_image conv1_depth
       calibrated_backprojection2 conv2_image conv2_depth
       calibrated_backprojection3 conv3_image conv3_depth
       calibrated_backprojection4 conv4_image conv4_depth
       calibrated_backprojection5 conv5_image conv5_depth].

Ltac run_in H :=
  cbv beta iota zeta delta
      [bindM lift ret raise getattr load unpack4
       call_Conv2d call_VGGNetBlock call_CalibratedBackprojectionBlock
       n_batch n_height0 n_width0 n_height1 n_width1 unbound] in H.

(** One step of the inversion of a run of [forward] that returned: a case
    analysis on the innermost value that the run branches on. *)
Ltac invert_step H :=
  match type of H with
  | context [match ?X with _ => _ end] =>
      lazymatch X with
      | context [match _ with _ => _ end] => fail
      | _ => destruct X eqn:?
      end
  end;
  run_in H; try discriminate H.

End KBNetEncoderSpec.

(** ** [MultiScaleDecoder] *)

Module MultiScaleDecoderSpec.

Import MultiScaleDecoder.








End MultiScaleDecoderSpec.

(** * Properties *)

(** ** Lists *)

Lemma skipn_add_app {A : Type} (l : list A) (rest : list A) (k : nat) :
  skipn (length l + k) (l ++ rest) = skipn k rest.
Proof.
  induction l as [|a l IH]; simpl; auto.
Qed.

Lemma firstn_length_app {A : Type} (l rest : list A) :
  firstn (length l) (l ++ rest) = l.
Proof.
  induction l as [|a l IH]; simpl.
  - reflexivity.
  - now rewrite IH.
Qed.

Lemma chunk_concat {A : Type} (n : nat) (ls : list (list A)) :
  Forall (fun l => length l = n) ls ->
  chunk (length ls) n (concat ls) = ls.
Proof.
  unfold chunk. induction 1 as [|l ls Hl Hls IH]; simpl.
  - reflexivity.
  - rewrite <- Hl at 1. rewrite firstn_length_app. f_equal.
    rewrite <- seq_shift, map_map. rewrite <- IH at 2.
    apply map_ext. intro i. f_equal.
    replace (S i * n) with (length l + i * n) by (simpl; lia).
    apply skipn_add_app.
Qed.

Lemma length_concat_uniform {A : Type} (n : nat) (ls : list (list A)) :
  Forall (fun l => length l = n) ls ->
  length (concat ls) = length ls * n.
Proof.
  induction 1 as [|l ls Hl Hls IH]; simpl.
  - reflexivity.
  - rewrite length_app, IH, Hl. reflexivity.
Qed.

Lemma nth_concat_uniform {A : Type} (d : A) (w : nat) (rows : list (list A)) :
  Forall (fun l => length l = w) rows ->
  forall y x, x < w ->
  nth (y * w + x) (concat rows) d = nth x (nth y rows []) d.
Proof.
  induction 1 as [|l ls Hl Hls IH]; intros y x Hx.
  - simpl. destruct (y * w + x), y, x; reflexivity.
  - destruct y as [|y]; simpl.
    + rewrite app_nth1 by lia. reflexivity.
    + rewrite app_nth2 by lia.
      replace (w + y * w + x - length l) with (y * w + x) by lia.
      now apply IH.
Qed.

Lemma nth_map_seq_from {A : Type} (f : nat -> A) (d : A) (n s i : nat) :
  i < n -> nth i (map f (seq s n)) d = f (s + i).
Proof.
  revert s i. induction n as [|n IH]; intros s i Hi; [lia|].
  destruct i as [|i]; simpl.
  - now rewrite Nat.add_0_r.
  - rewrite IH by lia. f_equal. lia.
Qed.

Lemma nth_map_seq {A : Type} (f : nat -> A) (d : A) (n i : nat) :
  i < n -> nth i (map f (seq 0 n)) d = f i.
Proof.
  intro Hi. now rewrite nth_map_seq_from.
Qed.

Lemma nth_chunk {A : Type} (k n : nat) (l : list A) (y : nat) :
  y < k -> nth y (chunk k n l) [] = firstn n (skipn (y * n) l).
Proof.
  intro Hy. unfold chunk. now rewrite nth_map_seq.
Qed.

Lemma nth_firstn_skipn {A : Type} (d : A) (n s x : nat) (l : list A) :
  x < n -> nth x (firstn n (skipn s l)) d = nth (s + x) l d.
Proof.
  intro Hx. rewrite nth_firstn.
  destruct (x <? n) eqn:E; [|apply Nat.ltb_ge in E; lia].
  apply nth_skipn.
Qed.

Lemma length_map3 {A B C D : Type} (f : A -> B -> C -> D) (n : nat) la lb lc :
  length la = n -> length lb = n -> length lc = n ->
  length (map3 f la lb lc) = n.
Proof.
  revert la lb lc. induction n as [|n IH]; intros [|a la] [|b lb] [|c lc];
    simpl; try discriminate; auto.
Qed.

Lemma nth_map3 {A B C D : Type} (f : A -> B -> C -> D) da db dc dd la lb lc i :
  i < length la -> length lb = length la -> length lc = length la ->
  nth i (map3 f la lb lc) dd = f (nth i la da) (nth i lb db) (nth i lc dc).
Proof.
  revert lb lc i. induction la as [|a la IH]; intros [|b lb] [|c lc] i;
    simpl; try discriminate; try lia.
  destruct i as [|i]; intros Hi Hb Hc.
  - reflexivity.
  - apply IH; lia.
Qed.

Lemma nth_map_in {A B : Type} (f : A -> B) (d : A) (d' : B) (l : list A) (i : nat) :
  i < length l -> nth i (map f l) d' = f (nth i l d).
Proof.
  revert i. induction l as [|a l IH]; intros i Hi; simpl in *; [lia|].
  destruct i as [|i]; [reflexivity|]. apply IH. lia.
Qed.

(** ** Geometry *)

Lemma inverse_invertible (K : list mat3) :
  Forall invertible K -> inverse K = Ok (map inv3 K).
Proof.
  unfold inverse. induction 1 as [|k K Hk HK IH]; simpl.
  - reflexivity.
  - unfold inverse1 at 1.
    destruct (Qeq_bool (det3 k) 0) eqn:E.
    + apply Qeq_bool_iff in E. contradiction.
    + simpl. rewrite IH. reflexivity.
Qed.

Lemma zipM_matmul1_repeat (ks : list mat3) (r0 r1 r2 : list Q) :
  zipM matmul1 ks (repeat [r0; r1; r2] (length ks))
  = Ok (map (fun k => rows k r0 r1 r2) ks).
Proof.
  induction ks as [|k ks IH]; simpl.
  - reflexivity.
  - rewrite IH. reflexivity.
Qed.

Lemma matmul_repeat (ks : list mat3) (r0 r1 r2 : list Q) :
  matmul ks (repeat [r0; r1; r2] (length ks))
  = Ok (map (fun k => rows k r0 r1 r2) ks).
Proof.
  unfold matmul, broadcast2. rewrite repeat_length, Nat.eqb_refl.
  apply zipM_matmul1_repeat.
Qed.

Lemma uniform_rows {A : Type} (f : nat -> nat -> A) (height width : nat) :
  Forall (fun l => length l = width)
         (map (fun y => map (fun x => f y x) (seq 0 width)) (seq 0 height)).
Proof.
  apply Forall_forall. intros l Hl. apply in_map_iff in Hl.
  destruct Hl as [y [<- _]]. now rewrite length_map, length_seq.
Qed.

Lemma length_grid {A : Type} (f : nat -> nat -> A) (height width : nat) :
  length (concat (map (fun y => map (fun x => f y x) (seq 0 width)) (seq 0 height)))
  = height * width.
Proof.
  rewrite (length_concat_uniform (uniform_rows f height width)).
  now rewrite length_map, length_seq.
Qed.

Lemma nth_grid {A : Type} (f : nat -> nat -> A) (d : A) (height width y x : nat) :
  y < height -> x < width ->
  nth (y * width + x)
      (concat (map (fun y => map (fun x => f y x) (seq 0 width)) (seq 0 height))) d
  = f y x.
Proof.
  intros Hy Hx.
  rewrite (nth_concat_uniform d (uniform_rows f height width)) by exact Hx.
  rewrite (nth_map_seq _ [] Hy). now rewrite nth_map_seq.
Qed.

Lemma Forall_repeat {A : Type} (P : A -> Prop) (a : A) (n : nat) :
  P a -> Forall P (repeat a n).
Proof.
  intro Ha. induction n; simpl; constructor; auto.
Qed.

Lemma map_repeat {A B : Type} (f : A -> B) (a : A) (n : nat) :
  map f (repeat a n) = repeat (f a) n.
Proof.
  induction n; simpl; congruence.
Qed.

(** The first view of [camera_coordinates]: the grid, one flat list per
    channel. *)
Lemma view_meshgrid (batch height width : nat) :
  0 < batch ->
  view3_infer batch 3 (flat4 (meshgrid batch height width))
  = Ok (repeat [grid_x height width; grid_y height width; grid_1 height width]
               batch).
Proof.
  intro Hb. unfold view3_infer, flat4, meshgrid.
  rewrite map_repeat.
  set (G := flat3 _).
  assert (HG : length G = 3 * (height * width)).
  { unfold G, flat3, flat2. simpl. rewrite !length_app. simpl.
    rewrite !length_grid. lia. }
  assert (HU : Forall (fun l => length l = 3 * (height * width)) (repeat G batch))
    by (apply Forall_repeat; exact HG).
  rewrite (length_concat_uniform HU), repeat_length.
  destruct (batch * 3 =? 0) eqn:E0; [apply Nat.eqb_eq in E0; lia|].
  replace (batch * (3 * (height * width))) with (height * width * (batch * 3)) by lia.
  rewrite Nat.Div0.mod_mul, Nat.div_mul by lia. simpl Nat.eqb. cbv iota.
  f_equal.
  replace (chunk batch (3 * (height * width)) (concat (repeat G batch)))
    with (repeat G batch).
  2:{ symmetry. rewrite <- (repeat_length G batch) at 1. now apply chunk_concat. }
  rewrite map_repeat. f_equal.
  unfold G, flat3, flat2. simpl map.
  change 3 with (length [grid_x height width; grid_y height width; grid_1 height width]).
  apply chunk_concat.
  repeat constructor; apply length_grid.
Qed.

(** The second view of [camera_coordinates]: each flat channel is cut into
    rows. *)
Lemma view4_rows (height width : nat) (ks : list mat3) (r0 r1 r2 : list Q) :
  length r0 = height * width -> length r1 = height * width ->
  length r2 = height * width ->
  view4 (length ks) 3 height width (flat3 (map (fun k => rows k r0 r1 r2) ks))
  = Ok (map (fun k => map (chunk height width) (rows k r0 r1 r2)) ks).
Proof.
  intros H0 H1 H2. unfold view4, flat3.
  assert (Hrow : forall k, Forall (fun l => length l = height * width) (rows k r0 r1 r2)).
  { intro k. unfold rows. repeat constructor; now apply length_map3. }
  assert (HU : Forall (fun l => length l = 3 * (height * width))
                      (map flat2 (map (fun k => rows k r0 r1 r2) ks))).
  { apply Forall_forall. intros l Hl. rewrite map_map in Hl.
    apply in_map_iff in Hl. destruct Hl as [k [<- _]].
    unfold flat2. now rewrite (length_concat_uniform (Hrow k)). }
  rewrite (length_concat_uniform HU), !length_map, Nat.eqb_refl.
  f_equal.
  replace (chunk (length ks) (3 * (height * width))
                 (concat (map flat2 (map (fun k => rows k r0 r1 r2) ks))))
    with (map flat2 (map (fun k => rows k r0 r1 r2) ks)).
  2:{ symmetry.
      assert (E : length (map flat2 (map (fun k => rows k r0 r1 r2) ks)) = length ks)
        by now rewrite !length_map.
      rewrite <- E at 1. now apply chunk_concat. }
  rewrite !map_map. apply map_ext. intro k. f_equal.
  unfold flat2.
  change 3 with (length (rows k r0 r1 r2)).
  apply chunk_concat, Hrow.
Qed.

(** What [camera_coordinates] returns on a non-empty batch of invertible
    matrices. *)
Lemma camera_coordinates_ok (fr : cells) (batch height width : nat) (K : list mat3) :
  n_batch fr = Some batch -> length K = batch -> 0 < batch ->
  Forall invertible K ->
  camera_coordinates fr batch height width K
  = Ok (map (fun k => map (chunk height width)
                          (rows k (grid_x height width) (grid_y height width)
                                (grid_1 height width)))
            (map inv3 K)).
Proof.
  intros Hfr HK Hb Hinv. unfold camera_coordinates.
  rewrite view_meshgrid by exact Hb. simpl bind.
  rewrite inverse_invertible by exact Hinv. simpl bind.
  rewrite <- HK. rewrite <- (length_map inv3 K) at 1.
  rewrite matmul_repeat. simpl bind.
  rewrite Hfr. simpl bind. rewrite <- HK, <- (length_map inv3 K).
  apply view4_rows; apply length_grid.
Qed.

(** An empty batch is refused: the size left open by the first view cannot
    be inferred. *)
Lemma camera_coordinates_empty (fr : cells) (height width : nat) (K : list mat3) :
  camera_coordinates fr 0 height width K = Raise RuntimeError.
Proof.
  reflexivity.
Qed.

Lemma inv3_right (k : mat3) (a b c : Q) :
  invertible k ->
  vec3_eq (mat3_vec k (mat3_vec (inv3 k) (a, b, c))) (a, b, c).
Proof.
  unfold invertible. intro Hk.
  unfold vec3_eq, mat3_vec, inv3, mat3_smul, adjugate. simpl.
  unfold det3 in *. repeat split; field; exact Hk.
Qed.

(** The entry of the result at batch element [b], channel [c], row [y] and
    column [x]. *)
Lemma camera_coordinates_entry (k : mat3) (height width y x : nat) :
  y < height -> x < width ->
  let t := map (chunk height width)
               (rows k (grid_x height width) (grid_y height width)
                     (grid_1 height width)) in
  (nth x (nth y (nth 0 t []) []) 0%Q,
   nth x (nth y (nth 1 t []) []) 0%Q,
   nth x (nth y (nth 2 t []) []) 0%Q)
  = mat3_vec k (Qnat x, Qnat y, 1%Q).
Proof.
  intros Hy Hx. simpl.
  rewrite !nth_chunk by exact Hy.
  rewrite !nth_firstn_skipn by exact Hx.
  assert (Hi : y * width + x < height * width) by nia.
  rewrite !(nth_map3 _ 0%Q 0%Q 0%Q)
    by (unfold grid_x, grid_y, grid_1; rewrite ?length_grid; auto).
  unfold grid_x, grid_y, grid_1.
  rewrite !nth_grid by assumption. reflexivity.
Qed.

(** C4: on a batch of invertible matrices [camera_coordinates] returns (when
    the batch is not empty), and multiplying its result by [K] on the left
    gives back the homogeneous pixel grid (x, y, 1) at every pixel, in exact
    arithmetic. *)
Theorem camera_coordinates_roundtrip
        (fr : cells) (batch height width : nat) (K : list mat3) :
  n_batch fr = Some batch ->
  length K = batch ->
  Forall invertible K ->
  (0 < batch -> exists c, camera_coordinates fr batch height width K = Ok c) /\
  (forall c, camera_coordinates fr batch height width K = Ok c ->
   forall b y x, b < batch -> y < height -> x < width ->
     vec3_eq (mat3_vec (nth b K mat3_zero)
                       (at4 c b 0 y x, at4 c b 1 y x, at4 c b 2 y x))
             (Qnat x, Qnat y, 1%Q)).
Proof.
  intros Hfr HK Hinv. split.
  - intro Hb. eexists. now apply camera_coordinates_ok.
  - intros c Hc b y x Hb Hy Hx.
    rewrite camera_coordinates_ok in Hc by (auto; lia).
    injection Hc as <-. unfold at4.
    rewrite map_map, (nth_map_in _ mat3_zero) by lia.
    pose proof (camera_coordinates_entry (inv3 (nth b K mat3_zero)) Hy Hx) as E.
    cbv zeta in E.
    match type of E with
    | ?l = _ => change (vec3_eq (mat3_vec (nth b K mat3_zero) l) (Qnat x, Qnat y, 1%Q))
    end.
    rewrite E.
    apply inv3_right.
    rewrite Forall_forall in Hinv. apply Hinv, nth_In. lia.
Qed.

Lemma camera_coordinates_roundtrip_witness :
  (0 < 1 -> exists c,
      camera_coordinates (Cells (Some 1) None None None None) 1 4 6 [K_example] = Ok c) /\
  (forall c,
      camera_coordinates (Cells (Some 1) None None None None) 1 4 6 [K_example] = Ok c ->
      forall b y x, b < 1 -> y < 4 -> x < 6 ->
        vec3_eq (mat3_vec (nth b [K_example] mat3_zero)
                          (at4 c b 0 y x, at4 c b 1 y x, at4 c b 2 y x))
                (Qnat x, Qnat y, 1%Q)).
Proof.
  apply (@camera_coordinates_roundtrip (Cells (Some 1) None None None None) 1 4 6
                                       [K_example]).
  - reflexivity.
  - reflexivity.
  - repeat constructor. unfold invertible. vm_compute. discriminate.
Defined.

Lemma zipM_hadamard_repeat (K : list mat3) (s : mat3) :
  zipM (fun a b => Ok (mat3_hadamard a b)) K (repeat s (length K))
  = Ok (map (fun k => mat3_hadamard k s) K).
Proof.
  induction K as [|k K IH]; simpl.
  - reflexivity.
  - rewrite IH. reflexivity.
Qed.

(** What [scale_intrinsics] returns: the quotients are those of the captured
    sizes, whatever the arguments are. *)
Lemma scale_intrinsics_ok (fr : cells) (batch height0 width0 height1 width1 : nat)
      (K : list mat3) (h0 w0 h1 w1 : nat) :
  n_batch fr = Some (length K) ->
  n_height0 fr = Some h0 -> n_width0 fr = Some w0 ->
  n_height1 fr = Some h1 -> n_width1 fr = Some w1 ->
  h0 <> 0 -> w0 <> 0 ->
  scale_intrinsics fr batch height0 width0 height1 width1 K
  = Ok (map (fun k => mat3_hadamard k
                        (scale_template (Qnat w1 / Qnat w0) (Qnat h1 / Qnat h0)))
            K).
Proof.
  intros Hb Hh0 Hw0 Hh1 Hw1 Nh Nw. unfold scale_intrinsics, truediv.
  rewrite Hw1, Hw0, Hh1, Hh0, Hb. simpl.
  apply Nat.eqb_neq in Nh, Nw. rewrite Nh, Nw. simpl.
  unfold broadcast2. rewrite repeat_length, Nat.eqb_refl.
  apply zipM_hadamard_repeat.
Qed.

Lemma scale_intrinsics_arguments (fr : cells) (K : list mat3)
      (batch height0 width0 height1 width1 : nat)
      (batch' height0' width0' height1' width1' : nat) :
  scale_intrinsics fr batch height0 width0 height1 width1 K
  = scale_intrinsics fr batch' height0' width0' height1' width1' K.
Proof.
  reflexivity.
Qed.

(** C1 (the code departs from it): in the call that [forward] makes for level
    2 of a 256 x 256 input, with [height1 = width1 = 64], the result is [K]
    scaled by 128/256 and not by 64/256; and a call with [height1 = height0]
    and [width1 = width0] does not return [K]. *)
Theorem scale_intrinsics_reads_captured_sizes :
  (exists m,
      scale_intrinsics frame_256 1 256 256 64 64 [K_example] = Ok [m] /\
      mat3_eq m (mat3_hadamard K_example (scale_template (128 # 256) (128 # 256))) /\
      ~ mat3_eq m (mat3_hadamard K_example
                     (scale_template (Qnat 64 / Qnat 256) (Qnat 64 / Qnat 256)))) /\
  (exists m,
      scale_intrinsics frame_256 1 256 256 256 256 [K_example] = Ok [m] /\
      ~ mat3_eq m K_example).
Proof.
  split.
  - eexists. split; [reflexivity|]. split.
    + unfold mat3_eq. repeat split; vm_compute; reflexivity.
    + unfold mat3_eq. intros [H _]. vm_compute in H. discriminate.
  - eexists. split; [reflexivity|].
    unfold mat3_eq. intros [H _]. vm_compute in H. discriminate.
Qed.

(** ** Intrinsics in pinhole form *)

Lemma pinhole_scaled (k : mat3) (sx sy : Q) :
  pinhole k -> ~ (sx == 0)%Q -> ~ (sy == 0)%Q ->
  pinhole (mat3_hadamard k (scale_template sx sy)).
Proof.
  intros (H10 & H20 & H21 & Hdet) Hx Hy.
  unfold pinhole, invertible in *.
  assert (Ek : (det3 k == m00 k * (m11 k * m22 k))%Q).
  { unfold det3. rewrite H10, H20, H21. ring. }
  assert (Es : (det3 (mat3_hadamard k (scale_template sx sy))
                == sx * sy * (m00 k * (m11 k * m22 k)))%Q).
  { unfold det3. simpl. rewrite H10, H20, H21. ring. }
  simpl. rewrite H10, H20, H21.
  repeat split; try ring.
  rewrite Es. intro E. apply Hdet. rewrite Ek.
  apply Qmult_integral in E. destruct E as [E|E]; [|exact E].
  apply Qmult_integral in E. tauto.
Qed.

Lemma pinhole_invertible (k : mat3) : pinhole k -> invertible k.
Proof.
  unfold pinhole. tauto.
Qed.

Lemma Qnat_quotient_nonzero (a b : nat) :
  a <> 0 -> b <> 0 -> ~ (Qnat a / Qnat b == 0)%Q.
Proof.
  intros Ha Hb H. unfold Qnat, Qdiv in H.
  apply Qmult_integral in H. destruct H as [H|H].
  - unfold Qeq in H. simpl in H. lia.
  - assert (E : ~ (inject_Z (Z.of_nat b) == 0)%Q)
      by (unfold Qeq; simpl; lia).
    apply E. rewrite <- (Qinv_involutive (inject_Z (Z.of_nat b))), H. reflexivity.
Qed.

Lemma camera_coordinates_returns (fr : cells) (batch height width : nat)
      (K : list mat3) :
  n_batch fr = Some batch -> length K = batch -> 0 < batch ->
  Forall pinhole K ->
  exists c, camera_coordinates fr batch height width K = Ok c.
Proof.
  intros Hfr HK Hb HP. eexists. apply camera_coordinates_ok; auto.
  eapply Forall_impl; [|exact HP]. apply pinhole_invertible.
Qed.

Lemma scale_intrinsics_returns (fr : cells) (batch height0 width0 height1 width1 : nat)
      (K : list mat3) (h0 w0 h1 w1 : nat) :
  n_batch fr = Some (length K) ->
  n_height0 fr = Some h0 -> n_width0 fr = Some w0 ->
  n_height1 fr = Some h1 -> n_width1 fr = Some w1 ->
  h0 <> 0 -> w0 <> 0 -> h1 <> 0 -> w1 <> 0 ->
  Forall pinhole K ->
  exists K1, scale_intrinsics fr batch height0 width0 height1 width1 K = Ok K1 /\
             length K1 = length K /\ Forall pinhole K1.
Proof.
  intros Hb Hh0 Hw0 Hh1 Hw1 Nh0 Nw0 Nh1 Nw1 HP.
  eexists. split; [|split].
  - eapply scale_intrinsics_ok; eauto.
  - now rewrite length_map.
  - apply Forall_forall. intros k1 Hk1. apply in_map_iff in Hk1.
    destruct Hk1 as [k [<- Hk]]. rewrite Forall_forall in HP.
    apply pinhole_scaled; [now apply HP | |]; now apply Qnat_quotient_nonzero.
Qed.

(** ** Maximum and minimum of a list of rationals *)

Lemma fold_max_ge (l : list Q) (a : Q) :
  (a <= fold_left Qmax l a)%Q /\
  (forall u, In u l -> (u <= fold_left Qmax l a)%Q).
Proof.
  revert a. induction l as [|v l IH]; intro a; simpl.
  - split; [apply Qle_refl | tauto].
  - destruct (IH (Qmax a v)) as [H1 H2]. split.
    + eapply Qle_trans; [apply Q.le_max_l | exact H1].
    + intros u [<-|Hu].
      * eapply Qle_trans; [apply Q.le_max_r | exact H1].
      * now apply H2.
Qed.

Lemma fold_max_in (l : list Q) (a : Q) :
  exists u, In u (a :: l) /\ (fold_left Qmax l a == u)%Q.
Proof.
  revert a. induction l as [|v l IH]; intro a; simpl.
  - exists a. split; [now left | reflexivity].
  - destruct (IH (Qmax a v)) as [u [[Hu|Hu] E]].
    + destruct (Q.max_spec a v) as [[_ Hm]|[_ Hm]].
      * exists v. split; [right; now left|]. now rewrite E, <- Hu.
      * exists a. split; [now left|]. now rewrite E, <- Hu.
    + exists u. split; [right; now right | exact E].
Qed.

Lemma fold_min_le (l : list Q) (a : Q) :
  (fold_left Qmin l a <= a)%Q /\
  (forall u, In u l -> (fold_left Qmin l a <= u)%Q).
Proof.
  revert a. induction l as [|v l IH]; intro a; simpl.
  - split; [apply Qle_refl | tauto].
  - destruct (IH (Qmin a v)) as [H1 H2]. split.
    + eapply Qle_trans; [exact H1 | apply Q.le_min_l].
    + intros u [<-|Hu].
      * eapply Qle_trans; [exact H1 | apply Q.le_min_r].
      * now apply H2.
Qed.

Lemma fold_min_in (l : list Q) (a : Q) :
  exists u, In u (a :: l) /\ (fold_left Qmin l a == u)%Q.
Proof.
  revert a. induction l as [|v l IH]; intro a; simpl.
  - exists a. split; [now left | reflexivity].
  - destruct (IH (Qmin a v)) as [u [[Hu|Hu] E]].
    + destruct (Q.min_spec a v) as [[_ Hm]|[_ Hm]].
      * exists a. split; [now left|]. now rewrite E, <- Hu.
      * exists v. split; [right; now left|]. now rewrite E, <- Hu.
    + exists u. split; [right; now right | exact E].
Qed.

(** ** [SparseToDensePool]: the min-pool stages *)

Module SparseToDensePoolFacts.

Import SparseToDensePool SparseToDensePoolSpec.

Lemma nonzero_true (v : Q) : nonzero v = true <-> ~ (v == 0)%Q.
Proof.
  unfold nonzero. rewrite negb_true_iff. split.
  - intros E H. apply Qeq_bool_iff in H. congruence.
  - intro H. destruct (Qeq_bool v 0) eqn:E; [|reflexivity].
    apply Qeq_bool_iff in E. contradiction.
Qed.

(** What [min_nonzero] is: zero on a window without a nonzero entry, and
    otherwise a nonzero entry of the window that is below all others. *)
Lemma min_nonzero_zero (w : list Q) :
  (forall u, In u w -> (u == 0)%Q) -> min_nonzero w = 0%Q.
Proof.
  intro Hz. unfold min_nonzero.
  replace (filter (fun v => negb (Qeq_bool v 0)) w) with (@nil Q); [reflexivity|].
  symmetry. induction w as [|v w IH]; simpl; [reflexivity|].
  destruct (Qeq_bool v 0) eqn:E; simpl.
  - apply IH. intros u Hu. apply Hz. now right.
  - exfalso. assert (H : (v == 0)%Q) by (apply Hz; now left).
    apply Qeq_bool_iff in H. congruence.
Qed.

Lemma min_nonzero_least (w : list Q) (u0 : Q) :
  In u0 w -> ~ (u0 == 0)%Q ->
  (exists u, In u w /\ ~ (u == 0)%Q /\ (min_nonzero w == u)%Q) /\
  (forall u, In u w -> ~ (u == 0)%Q -> (min_nonzero w <= u)%Q).
Proof.
  intros Hin Hnz. unfold min_nonzero.
  fold nonzero. change (fun v : Q => negb (Qeq_bool v 0)) with nonzero.
  assert (Hf : In u0 (filter nonzero w))
    by (apply filter_In; split; [exact Hin | now apply nonzero_true]).
  destruct (filter nonzero w) as [|v l] eqn:E; [contradiction|].
  assert (Hsub : forall u, In u (v :: l) <-> In u w /\ ~ (u == 0)%Q).
  { intro u. rewrite <- E, filter_In, nonzero_true. tauto. }
  split.
  - destruct (fold_min_in l v) as [u [Hu Eu]].
    exists u. apply Hsub in Hu. tauto.
  - intros u Hu Hn. destruct (fold_min_le l v) as [H1 H2].
    assert (Hu' : In u (v :: l)) by (apply Hsub; tauto).
    destruct Hu' as [<-|Hu']; [exact H1 | now apply H2].
Qed.

Lemma mask_zero (v : Q) : (v == 0)%Q -> (mask v == - (999))%Q.
Proof.
  intro H. unfold mask. apply Qeq_bool_iff in H. rewrite H. ring.
Qed.

Lemma mask_nonzero (v : Q) : ~ (v == 0)%Q -> mask v = (- v)%Q.
Proof.
  intro H. unfold mask. destruct (Qeq_bool v 0) eqn:E; [|reflexivity].
  apply Qeq_bool_iff in E. contradiction.
Qed.

(** One output entry of a min-pool stage, from the window of the depth map
    under the kernel. *)
Lemma min_pool_entry (w : list Q) :
  Forall below_flag w ->
  (unflag (- max_entries (map mask w)) == min_nonzero w)%Q /\
  ~ (unflag (- max_entries (map mask w)) == 999)%Q.
Proof.
  intro Hw. rewrite Forall_forall in Hw.
  destruct w as [|v w].
  - simpl. unfold unflag, min_nonzero. simpl. split; [reflexivity|].
    intro H. unfold Qeq in H. simpl in H. discriminate.
  - cbn [map max_entries].
    set (M := fold_left Qmax (map mask w) (mask v)).
    destruct (fold_max_in (map mask w) (mask v)) as [fu [Hfu EM]]. fold M in EM.
    assert (Hu : exists u, In u (v :: w) /\ (M == mask u)%Q).
    { destruct Hfu as [<-|Hfu].
      - exists v. split; [now left | exact EM].
      - apply in_map_iff in Hfu. destruct Hfu as [u [<- Hu]].
        exists u. split; [now right | exact EM]. }
    destruct Hu as [u [Hu Eu]].
    assert (Hge : forall u', In u' (v :: w) -> (mask u' <= M)%Q).
    { destruct (fold_max_ge (map mask w) (mask v)) as [H1 H2].
      intros u' [<-|Hu']; [exact H1 | now apply H2, in_map]. }
    destruct (existsb nonzero (v :: w)) eqn:Ex.
    + (* the window has a nonzero entry *)
      apply existsb_exists in Ex. destruct Ex as [u0 [Hu0 Hn0]].
      apply nonzero_true in Hn0.
      assert (Hlt : (- (999) < M)%Q).
      { eapply Qlt_le_trans; [|apply (Hge u0 Hu0)].
        rewrite (mask_nonzero Hn0).
        destruct (Hw u0 Hu0) as [_ Hb]. apply Qopp_lt_compat in Hb. exact Hb. }
      assert (Hnu : ~ (u == 0)%Q).
      { intro Hz. rewrite (mask_zero Hz) in Eu. rewrite Eu in Hlt.
        exact (Qlt_irrefl _ Hlt). }
      rewrite (mask_nonzero Hnu) in Eu.
      assert (EM' : (- M == u)%Q) by (rewrite Eu; ring).
      assert (Hun : Qeq_bool (- M) 999 = false).
      { destruct (Qeq_bool (- M) 999) eqn:E; [|reflexivity].
        apply Qeq_bool_iff in E. rewrite EM' in E.
        destruct (Hw u Hu) as [_ Hb]. rewrite E in Hb.
        exfalso. exact (Qlt_irrefl _ Hb). }
      unfold unflag. rewrite Hun.
      destruct (min_nonzero_least (v :: w) Hu0 Hn0) as [[u1 [Hu1 [Hn1 E1]]] Hleast].
      split.
      * apply Qle_antisym.
        -- rewrite E1. assert (H := Hge u1 Hu1). rewrite (mask_nonzero Hn1) in H.
           apply Qopp_le_compat in H. rewrite Qopp_involutive in H. exact H.
        -- rewrite EM'. now apply Hleast.
      * intro E. apply Qeq_bool_iff in E. congruence.
    + (* the window has no nonzero entry *)
      assert (Hz : forall u', In u' (v :: w) -> (u' == 0)%Q).
      { intros u' Hu'. destruct (Qeq_bool u' 0) eqn:E.
        - now apply Qeq_bool_iff.
        - exfalso. apply (Bool.eq_true_false_abs (existsb nonzero (v :: w)));
            [|exact Ex].
          apply existsb_exists. exists u'. split; [exact Hu'|].
          unfold nonzero. now rewrite E. }
      rewrite (mask_zero (Hz u Hu)) in Eu.
      assert (EM' : (- M == 999)%Q) by (rewrite Eu; ring).
      apply Qeq_bool_iff in EM'. unfold unflag. rewrite EM'.
      rewrite (min_nonzero_zero (v :: w) Hz).
      split; [reflexivity|].
      intro H. unfold Qeq in H. simpl in H. discriminate.
Qed.

(** The window of a map whose entries were transformed. *)
Lemma under_kernel_map {A B : Type} (f : A -> B) (k p start : nat) (l : list A) :
  under_kernel k p start (map f l) = map f (under_kernel k p start l).
Proof.
  unfold under_kernel. induction (seq 0 k) as [|d ds IH]; simpl.
  - reflexivity.
  - rewrite map_app, IH. f_equal.
    destruct (start + d <? p); [reflexivity|].
    rewrite nth_error_map. now destruct (nth_error l (start + d - p)).
Qed.

Lemma under_kernel_In {A : Type} (k p start : nat) (l : list A) (a : A) :
  In a (under_kernel k p start l) -> In a l.
Proof.
  unfold under_kernel. intro H. apply in_flat_map in H.
  destruct H as [d [_ H]].
  destruct (start + d <? p); [contradiction|].
  destruct (nth_error l (start + d - p)) eqn:E; [|contradiction].
  destruct H as [<-|[]]. eapply nth_error_In, E.
Qed.

Lemma flat_map_map_out {A B C : Type} (f : B -> C) (g : A -> list B) (l : list A) :
  flat_map (fun a => map f (g a)) l = map f (flat_map g l).
Proof.
  induction l as [|a l IH]; simpl; [reflexivity|].
  now rewrite map_app, IH.
Qed.

Lemma flat_map_map_in {A B C : Type} (f : A -> B) (g : B -> list C) (l : list A) :
  flat_map g (map f l) = flat_map (fun a => g (f a)) l.
Proof.
  induction l as [|a l IH]; simpl; [reflexivity|]. now rewrite IH.
Qed.

Lemma window_map (pool : MaxPool2d) (f : Q -> Q) (m : tensor2) (i j : nat) :
  window pool (map (map f) m) i j = map f (window pool m i j).
Proof.
  unfold window. rewrite under_kernel_map, flat_map_map_in.
  rewrite <- flat_map_map_out. apply flat_map_ext. intro row.
  apply under_kernel_map.
Qed.

Lemma window_In (pool : MaxPool2d) (m : tensor2) (i j : nat) (v : Q) :
  In v (window pool m i j) -> exists row, In row m /\ In v row.
Proof.
  unfold window. intro H. apply in_flat_map in H.
  destruct H as [row [Hrow Hv]]. exists row. split.
  - eapply under_kernel_In, Hrow.
  - eapply under_kernel_In, Hv.
Qed.

Lemma mapM_ok {A B : Type} (g : A -> result B) (h : A -> B) (l : list A) :
  (forall a, In a l -> g a = Ok (h a)) -> mapM g l = Ok (map h l).
Proof.
  induction l as [|a l IH]; intro Hg; simpl.
  - reflexivity.
  - rewrite Hg by now left. simpl. rewrite IH; [reflexivity|].
    intros a' Ha'. apply Hg. now right.
Qed.

Lemma zipM_map_ok {A B : Type} (g : B -> A -> result B) (f : A -> B) (h : A -> B)
      (l : list A) :
  (forall a, In a l -> g (f a) a = Ok (h a)) ->
  zipM g (map f l) l = Ok (map h l).
Proof.
  induction l as [|a l IH]; intro Hg; simpl.
  - reflexivity.
  - rewrite Hg by now left. simpl. rewrite IH; [reflexivity|].
    intros a' Ha'. apply Hg. now right.
Qed.

Lemma expand_length {A : Type} (l : list A) : expand (length l) l = l.
Proof.
  destruct l as [|a [|b l]]; reflexivity.
Qed.

Lemma hd_map_map {A B : Type} (f : A -> B) (m : list (list A)) :
  hd [] (map (map f) m) = map f (hd [] m).
Proof.
  now destruct m.
Qed.

Lemma maxpool2d_odd (r : nat) (m : tensor2) :
  0 < length m -> 0 < length (hd [] m) ->
  maxpool2d (MkMaxPool2d (2 * r + 1) 1 r) m
  = Ok (pooled (MkMaxPool2d (2 * r + 1) 1 r) m).
Proof.
  intros Hh Hw. unfold maxpool2d, pooled.
  cbn [kernel_size stride padding].
  assert (E1 : (2 * r + 1 =? 0) = false) by (apply Nat.eqb_neq; lia).
  assert (E2 : (2 * r + 1) / 2 = r).
  { replace (2 * r + 1) with (r * 2 + 1) by lia.
    rewrite Nat.div_add_l by lia. simpl. lia. }
  assert (E3 : (r <? r) = false) by (apply Nat.ltb_ge; lia).
  assert (E4 : (length m =? 0) = false) by (apply Nat.eqb_neq; lia).
  assert (E5 : (length (hd [] m) =? 0) = false) by (apply Nat.eqb_neq; lia).
  assert (E6 : (length m + 2 * r <? 2 * r + 1) = false) by (apply Nat.ltb_ge; lia).
  assert (E7 : (length (hd [] m) + 2 * r <? 2 * r + 1) = false)
    by (apply Nat.ltb_ge; lia).
  rewrite E1, E2, E3, E4, E5, E6, E7. cbn [orb Nat.eqb].
  rewrite !Nat.div_1_r.
  replace (length (hd [] m) + 2 * r - (2 * r + 1) + 1) with (length (hd [] m)) by lia.
  replace (length m + 2 * r - (2 * r + 1) + 1) with (length m) by lia.
  reflexivity.
Qed.

Lemma where_sentinel_pooled (pool : MaxPool2d) (m : tensor2) :
  0 < length m ->
  where_sentinel (map (map Qopp) (pooled pool (map (map mask) m))) m
  = Ok (min_pooled pool m).
Proof.
  intro Hh. unfold where_sentinel. unfold tensor2, tensor1 in *.
  set (P := pooled pool (map (map mask) m)).
  assert (HP1 : length (map (map Qopp) P) = length m).
  { unfold P, pooled. now rewrite !length_map, length_seq. }
  assert (HP2 : length (hd [] (map (map Qopp) P)) = length (hd [] m)).
  { unfold P, pooled. clear P HP1.
    destruct m as [|row0 m0]; [simpl in Hh; lia|].
    cbn [length seq map hd]. now rewrite !length_map, length_seq. }
  rewrite HP1, HP2. unfold broadcast_dim. rewrite !Nat.eqb_refl. cbn [bind].
  f_equal. rewrite <- HP1, expand_length.
  unfold P, pooled, min_pooled. rewrite hd_map_map, !length_map, !map_map.
  apply map_ext. intro i.
  set (row := map Qopp _).
  assert (Er : length row = length (hd [] m))
    by (unfold row; now rewrite !length_map, length_seq).
  rewrite <- Er at 1. rewrite expand_length. unfold row.
  rewrite !map_map. apply map_ext. intro j.
  now rewrite window_map.
Qed.

(** What a min-pool stage returns on depth maps, for an odd kernel. *)
Lemma min_pool_stage_ok (r : nat) (z : tensor4) :
  Forall (Forall depth_map) z ->
  min_pool_stage (MkMaxPool2d (2 * r + 1) 1 r) z
  = Ok (map (map (min_pooled (MkMaxPool2d (2 * r + 1) 1 r))) z).
Proof.
  intro Hz. rewrite Forall_forall in Hz. unfold min_pool_stage.
  set (pool := MkMaxPool2d (2 * r + 1) 1 r).
  change (map4 (fun v => if Qeq_bool v 0 then (- (999) * 1)%Q else (- v)%Q) z)
    with (map (map (map (map mask))) z).
  unfold MaxPool2d_forward.
  rewrite (@mapM_ok _ _ (mapM (maxpool2d pool)) (map (pooled pool))).
  2:{ intros sample Hs. apply mapM_ok. intros m Hm.
      apply in_map_iff in Hs. destruct Hs as [sample0 [<- Hs]].
      apply in_map_iff in Hm. destruct Hm as [m0 [<- Hm]].
      assert (Hd := Hz sample0 Hs). rewrite Forall_forall in Hd.
      destruct (Hd m0 Hm) as (Hh & Hw & _).
      apply maxpool2d_odd.
      - now rewrite length_map.
      - now rewrite hd_map_map, length_map. }
  cbn [bind]. unfold map4. rewrite !map_map.
  apply zipM_map_ok. intros sample Hs. rewrite !map_map.
  apply zipM_map_ok. intros m Hm.
  assert (Hd := Hz sample Hs). rewrite Forall_forall in Hd.
  destruct (Hd m Hm) as (Hh & _ & _).
  now apply where_sentinel_pooled.
Qed.

Lemma nth_map_error {A B : Type} (f : A -> B) (d : B) (l : list A) (i : nat) (a : A) :
  nth_error l i = Some a -> nth i (map f l) d = f a.
Proof.
  revert i. induction l as [|a' l IH]; intros [|i] E; simpl in *;
    try discriminate.
  - now injection E as ->.
  - now apply IH.
Qed.

(** The pools that [__init__] builds from odd sizes. *)
Lemma init_min_pools `{NetUtils} (c : config) (self : t) (pool : MaxPool2d) :
  init c = Ok self ->
  Forall (fun s => Nat.odd s = true) (cfg_min_pool_sizes c) ->
  In pool (min_pools self) ->
  exists r, pool = MkMaxPool2d (2 * r + 1) 1 r.
Proof.
  unfold init. intros Hinit Hodd Hin.
  destruct (activation_func (cfg_activation_func c)) as [act|e];
    [|discriminate].
  cbn [bind] in Hinit. injection Hinit as <-. cbn [min_pools] in Hin.
  apply in_map_iff in Hin. destruct Hin as [s [<- Hs]].
  apply filter_In in Hs. destruct Hs as [Hs _].
  rewrite Forall_forall in Hodd. apply Hodd in Hs.
  apply Nat.odd_spec in Hs. destruct Hs as [r ->].
  exists r. f_equal. change ((2 * r + 1) / 2 = r).
  replace (2 * r + 1) with (r * 2 + 1) by lia.
  rewrite Nat.div_add_l by lia. simpl. lia.
Qed.

(** C9 (amended): on depth maps whose entries are zero or positive and below
    999, every min-pool stage with an odd kernel size returns, at every
    pixel, the minimum of the nonzero entries of the window under the kernel
    (zero when the window has none), and no entry of its result is 999. *)
Theorem min_pool_stage_min_nonzero `{NetUtils}
        (c : config) (self : t) (pool : MaxPool2d) (z : tensor4) :
  init c = Ok self ->
  Forall (fun s => Nat.odd s = true) (cfg_min_pool_sizes c) ->
  In pool (min_pools self) ->
  Forall (Forall depth_map) z ->
  exists out,
    min_pool_stage pool z = Ok out /\
    forall b ch i j sample m,
      nth_error z b = Some sample -> nth_error sample ch = Some m ->
      i < length m -> j < length (hd [] m) ->
      (at4 out b ch i j == min_nonzero (window pool m i j))%Q /\
      ~ (at4 out b ch i j == 999)%Q.
Proof.
  intros Hinit Hodd Hin Hz.
  destruct (@init_min_pools _ c self pool Hinit Hodd Hin) as [r ->].
  eexists. split; [now apply min_pool_stage_ok|].
  intros b ch i j sample m Hb Hch Hi Hj. unfold at4.
  unfold tensor4, tensor3, tensor2, tensor1 in *.
  rewrite (nth_map_error _ [] _ _ Hb), (nth_map_error _ [] _ _ Hch).
  unfold min_pooled.
  rewrite (nth_map_seq _ [] Hi), (nth_map_seq _ 0%Q Hj).
  apply min_pool_entry.
  apply Forall_forall. intros v Hv.
  apply window_In in Hv. destruct Hv as [row [Hrow Hv]].
  rewrite Forall_forall in Hz.
  assert (Hs := Hz sample (nth_error_In _ _ Hb)).
  rewrite Forall_forall in Hs.
  destruct (Hs m (nth_error_In _ _ Hch)) as (_ & _ & Hm).
  rewrite Forall_forall in Hm. assert (Hr := Hm row Hrow).
  rewrite Forall_forall in Hr. now apply Hr.
Qed.

Lemma init_default_pool : @init Sym.net default_config = Ok default_pool.
Proof.
  reflexivity.
Qed.

Lemma min_pool_stage_min_nonzero_witness :
  exists out,
    min_pool_stage (MkMaxPool2d 3 1 1) [[[[0; 5]; [7; 0]]]]%Q = Ok out /\
    forall b ch i j sample m,
      nth_error [[[[0; 5]; [7; 0]]]]%Q b = Some sample ->
      nth_error sample ch = Some m ->
      i < length m -> j < length (hd [] m) ->
      (at4 out b ch i j == min_nonzero (window (MkMaxPool2d 3 1 1) m i j))%Q /\
      ~ (at4 out b ch i j == 999)%Q.
Proof.
  apply (@min_pool_stage_min_nonzero Sym.net default_config default_pool).
  - reflexivity.
  - repeat constructor.
  - simpl. auto.
  - repeat constructor; unfold Qle, Qlt; simpl; lia.
Defined.

(** C9 as stated fails above the flag and for an even kernel: a depth of
    1500 next to a pixel without measurement is lost, the stage returns 0
    where the minimum of the nonzero entries of the window is 1500; and the
    stage of kernel size 2, whose pooling returns a map one entry larger than
    the depth map, raises on a 2 x 2 depth map. *)
Lemma min_pool_stage_min_nonzero_fails :
  (let pool := MkMaxPool2d 3 1 1 in
   let m := [[0; 1500]]%Q in
   In pool (min_pools default_pool) /\
   Forall (Forall (fun v => (0 <= v)%Q)) m /\
   exists out,
     min_pool_stage pool [[m]] = Ok out /\
     (at4 out 0 0 0 1 == 0)%Q /\
     (min_nonzero (window pool m 0 1) == 1500)%Q /\
     ~ (at4 out 0 0 0 1 == min_nonzero (window pool m 0 1))%Q) /\
  (let m := [[0; 5]; [7; 0]]%Q in
   exists self pool,
     @init Sym.net even_config = Ok self /\
     min_pools self = [pool] /\
     Forall (Forall (fun v => (0 <= v)%Q)) m /\
     min_pool_stage pool [[m]] = Raise RuntimeError).
Proof.
  cbv zeta. split.
  - split; [simpl; auto|]. split.
    + repeat constructor; unfold Qle; simpl; lia.
    + eexists. split; [vm_compute; reflexivity|].
      repeat split; vm_compute; congruence.
  - eexists. exists (MkMaxPool2d 2 1 1).
    split; [vm_compute; reflexivity|]. split; [reflexivity|]. split.
    + repeat constructor; unfold Qle; simpl; lia.
    + vm_compute. reflexivity.
Qed.

End SparseToDensePoolFacts.

(** ** [PoseDecoder] *)

Module PoseDecoderFacts.

Import PoseDecoder PoseDecoderSpec.





Lemma init_default_decoder : @init Sym.net default_config = Ok default_decoder.
Proof.
  reflexivity.
Qed.


Lemma init_norm_decoder : @init Sym.net norm_config = Ok norm_decoder.
Proof.
  reflexivity.
Qed.


End PoseDecoderFacts.

(** ** [KBNetEncoder] *)

Module KBNetEncoderFacts.

Import KBNetEncoder KBNetEncoderSpec.

(** *** Construction *)

Lemma check_lengths_spec (c : config) :
  (all_five c /\ check_lengths c = Ok tt) \/
  (~ all_five c /\ check_lengths c = Raise AssertionError).
Proof.
  unfold check_lengths, all_five, assert, network_depth.
  destruct (Nat.eqb_spec (length (n_convolutions_image c)) 5);
    [|right; split; [tauto | reflexivity]].
  destruct (Nat.eqb_spec (length (n_convolutions_depth c)) 5);
    [|right; split; [tauto | reflexivity]].
  destruct (Nat.eqb_spec (length (n_convolutions_fused c)) 5);
    [|right; split; [tauto | reflexivity]].
  destruct (Nat.eqb_spec (length (n_filters_image c)) 5);
    [|right; split; [tauto | reflexivity]].
  destruct (Nat.eqb_spec (length (n_filters_depth c)) 5);
    [|right; split; [tauto | reflexivity]].
  destruct (Nat.eqb_spec (length (n_filters_fused c)) 5);
    [|right; split; [tauto | reflexivity]].
  left. split; [tauto | reflexivity].
Qed.

(** C10: the length validation of [__init__] raises exactly when one of the
    six lists does not have five entries, and the construction then fails
    with that assertion; with six lists of five entries the validation
    passes, and a failure of the construction is the failure of
    [net_utils.activation_func]. *)
Theorem init_length_validation `{NetUtils} (c : config) :
  (check_lengths c = Raise AssertionError <-> ~ all_five c) /\
  (check_lengths c = Ok tt <-> all_five c) /\
  (~ all_five c -> init c = Raise AssertionError) /\
  (all_five c ->
   forall e, init c = Raise e ->
             activation_func (cfg_activation_func c) = Raise e).
Proof.
  destruct (check_lengths_spec c) as [[H5 E]|[H5 E]].
  - split; [|split; [|split]].
    + rewrite E. split; [discriminate | tauto].
    + rewrite E. tauto.
    + tauto.
    + intros _ e. unfold init. rewrite E. cbn [bind].
      destruct (activation_func (cfg_activation_func c)) as [act|e'].
      * cbn [bind]. repeat (destruct (contains _ _) || destruct (level_blocks _ _ _ _ _ _) as [[? ?] ?]);
          discriminate.
      * cbn [bind]. congruence.
  - split; [|split; [|split]].
    + rewrite E. tauto.
    + rewrite E. split; [discriminate | tauto].
    + intros _. unfold init. now rewrite E.
    + tauto.
Qed.

(** *** What [__init__] registers *)

Lemma level_blocks_registered (c : config) (act : activation) (n : nat)
      (a b d : string) :
  let '(kb, ci, cd) := level_blocks c act n a b d in
  registered (cfg_resolutions_backprojection c) n kb ci cd.
Proof.
  unfold level_blocks, registered.
  destruct (contains n (cfg_resolutions_backprojection c)); eauto.
Qed.

Lemma init_registers_blocks `{NetUtils} (c : config) (self : t) :
  init c = Ok self ->
  let res := cfg_resolutions_backprojection c in
  resolutions_backprojection self = res /\
  (if contains 0 res
   then exists a b k, conv0_image self = Some a /\ conv0_depth self = Some b /\
                      calibrated_backprojection1 self = Some k
   else exists bi bd, conv1_image self = Some bi /\ conv1_depth self = Some bd) /\
  registered res 1 (calibrated_backprojection2 self) (conv2_image self) (conv2_depth self) /\
  registered res 2 (calibrated_backprojection3 self) (conv3_image self) (conv3_depth self) /\
  registered res 3 (calibrated_backprojection4 self) (conv4_image self) (conv4_depth self) /\
  registered res 4 (calibrated_backprojection5 self) (conv5_image self) (conv5_depth self).
Proof.
  unfold init. intro Hinit.
  destruct (check_lengths c); [|discriminate]. cbn [bind] in Hinit.
  destruct (activation_func (cfg_activation_func c)) as [act|]; [|discriminate].
  cbn [bind] in Hinit.
  pose proof (level_blocks_registered c act 1 "calibrated_backprojection2"
                "conv2_image" "conv2_depth") as H1.
  pose proof (level_blocks_registered c act 2 "calibrated_backprojection3"
                "conv3_image" "conv3_depth") as H2.
  pose proof (level_blocks_registered c act 3 "calibrated_backprojection4"
                "conv4_image" "conv4_depth") as H3.
  pose proof (level_blocks_registered c act 4 "calibrated_backprojection5"
                "conv5_image" "conv5_depth") as H4.
  destruct (level_blocks c act 1 _ _ _) as [[kb2 c2i] c2d].
  destruct (level_blocks c act 2 _ _ _) as [[kb3 c3i] c3d].
  destruct (level_blocks c act 3 _ _ _) as [[kb4 c4i] c4d].
  destruct (level_blocks c act 4 _ _ _) as [[kb5 c5i] c5d].
  destruct (contains 0 (cfg_resolutions_backprojection c)) eqn:E0;
    injection Hinit as <-; cbn; rewrite ?E0; repeat split; eauto 10.
Qed.

(** *** Running [forward] *)

Lemma unpack4_length (s : list nat) :
  length s = 4 -> exists a b c d, s = [a; b; c; d].
Proof.
  destruct s as [|a [|b [|c [|d [|e s]]]]]; try discriminate. eauto.
Qed.

Section Forward.

Context `{NetUtils}.

Lemma bindM_Ok {A B : Type} (m : M A) (f : A -> M B) (log log' : list event) (a : A) :
  m log = Ok (a, log') -> bindM m f log = f a log'.
Proof.
  intro E. unfold bindM. now rewrite E.
Qed.

Lemma bindM_Raise {A B : Type} (m : M A) (f : A -> M B) (log : list event) (e : exn) :
  m log = Raise e -> bindM m f log = Raise e.
Proof.
  intro E. unfold bindM. now rewrite E.
Qed.

(** A calibrated level after level 0 reads [n_batch] first. *)
Lemma stage_unbound (self : t) (n : nat) kb ci cd (fr : cells) (h w : nat)
      (K : list mat3) (image_ depth_ : tensor) (fused_ : option tensor)
      (log : list event) :
  contains n (resolutions_backprojection self) = true ->
  n_batch fr = None ->
  stage self n kb ci cd fr h w K image_ depth_ fused_ log = Raise UnboundLocalError.
Proof.
  intros Hn Hb. unfold stage. rewrite Hn. unfold bindM. now rewrite Hb.
Qed.

(** A plain level. *)
Lemma stage_plain (self : t) (n : nat) kb (bi bd : VGGNetBlock) (fr : cells)
      (h w : nat) (K : list mat3) (image_ depth_ : tensor)
      (fused_ : option tensor) (log : list event) :
  contains n (resolutions_backprojection self) = false ->
  let x := match fused_ with Some fused => fused | None => image_ end in
  let image_out := VGGNetBlock_forward bi x in
  let depth_out := VGGNetBlock_forward bd depth_ in
  stage self n kb (Some bi) (Some bd) fr h w K image_ depth_ fused_ log
  = Ok ((image_out, depth_out, None, [image_out; depth_out]),
        (log ++ [CallVGGNetBlock n bi x image_out])
          ++ [CallVGGNetBlock n bd depth_ depth_out]).
Proof.
  intro Hn. unfold stage. rewrite Hn. now destruct fused_.
Qed.

(** A calibrated level whose captured sizes are bound, on intrinsics in
    pinhole form. *)
Lemma stage_calibrated (self : t) (n : nat) (block : CalibratedBackprojectionBlock)
      ci cd (fr : cells) (h w : nat) (K : list mat3) (h0 w0 h1 w1 : nat)
      (image_ depth_ : tensor) (fused_ : option tensor) (log : list event) :
  contains n (resolutions_backprojection self) = true ->
  n_batch fr = Some (length K) ->
  n_height0 fr = Some h0 -> n_width0 fr = Some w0 ->
  n_height1 fr = Some h1 -> n_width1 fr = Some w1 ->
  h0 <> 0 -> w0 <> 0 -> h1 <> 0 -> w1 <> 0 ->
  0 < length K -> Forall pinhole K ->
  exists coordinates image_out depth_out fused_out,
    CalibratedBackprojectionBlock_forward block image_ depth_ coordinates fused_
    = (image_out, depth_out, fused_out) /\
    stage self n (Some block) ci cd fr h w K image_ depth_ fused_ log
    = Ok ((image_out, depth_out, Some fused_out, [fused_out; depth_out]),
          log ++ [CallCalibratedBackprojectionBlock n block image_ depth_
                    coordinates fused_ (image_out, depth_out, fused_out)]).
Proof.
  intros Hn Hb Hh0 Hw0 Hh1 Hw1 Nh0 Nw0 Nh1 Nw1 HK HP.
  destruct (@scale_intrinsics_returns fr (length K) h0 w0 h w K h0 w0 h1 w1
              Hb Hh0 Hw0 Hh1 Hw1 Nh0 Nw0 Nh1 Nw1 HP) as (K1 & E1 & L1 & P1).
  destruct (@camera_coordinates_returns fr (length K) h w K1 Hb L1 HK P1)
    as (coordinates & E2).
  exists coordinates.
  destruct (CalibratedBackprojectionBlock_forward block image_ depth_ coordinates
              fused_) as [[image_out depth_out] fused_out] eqn:E3.
  exists image_out, depth_out, fused_out. split; [reflexivity|].
  unfold stage. rewrite Hn, Hb, Hh0, Hw0.
  cbn [bindM load ret]. rewrite E1. cbn [bindM lift load ret]. rewrite E2.
  cbn [bindM lift getattr ret call_CalibratedBackprojectionBlock].
  now rewrite E3.
Qed.

(** C5: when level 0 is not in [resolutions_backprojection] and some level in
    1..4 is, [forward] raises [UnboundLocalError] (a [NameError]) on every
    image, depth and intrinsics.  The feature tensors are taken to be
    four-dimensional, as their unpacking requires. *)
Theorem forward_requires_level0
        (c : config) (self : t) (image depth : tensor) (K : list mat3)
        (log : list event) :
  (forall m x, length (shape x) = 4 -> length (shape (VGGNetBlock_forward m x)) = 4) ->
  length (shape image) = 4 ->
  init c = Ok self ->
  contains 0 (cfg_resolutions_backprojection c) = false ->
  (exists n, 1 <= n <= 4 /\ contains n (cfg_resolutions_backprojection c) = true) ->
  forward self image depth K log = Raise UnboundLocalError /\
  is_name_error UnboundLocalError = true.
Proof.
  intros Hvgg Himage Hinit H0 [n [Hn Hcal]]. split; [|reflexivity].
  destruct (init_registers_blocks c Hinit) as (Hres & R0 & R1 & R2 & R3 & R4).
  cbv zeta in *. rewrite <- Hres in *. clear Hres Hinit.
  rewrite H0 in R0. destruct R0 as (bi1 & bd1 & Ei1 & Ed1).
  unfold forward. rewrite H0, Ei1, Ed1.
  cbn [bindM getattr ret call_VGGNetBlock lift].
  set (i1 := VGGNetBlock_forward bi1 image).
  set (d1 := VGGNetBlock_forward bd1 depth).
  destruct (unpack4_length (shape i1)) as (a1 & b1 & h1 & w1 & E1);
    [now apply Hvgg|].
  rewrite E1. cbn [unpack4 bindM lift n_batch n_height0 n_width0 unbound].
  unfold registered in R1, R2, R3, R4.
  destruct (contains 1 (resolutions_backprojection self)) eqn:C1.
  { now apply bindM_Raise, stage_unbound. }
  destruct R1 as (bi2 & bd2 & Ei2 & Ed2). rewrite Ei2, Ed2.
  erewrite bindM_Ok by (now apply stage_plain).
  cbv zeta. cbn [bindM lift].
  set (i2 := VGGNetBlock_forward bi2 i1).
  destruct (unpack4_length (shape i2)) as (a2 & b2 & h2 & w2 & E2);
    [apply Hvgg; unfold i1; now apply Hvgg|].
  rewrite E2. cbn [unpack4 bindM lift].
  destruct (contains 2 (resolutions_backprojection self)) eqn:C2.
  { now apply bindM_Raise, stage_unbound. }
  destruct R2 as (bi3 & bd3 & Ei3 & Ed3). rewrite Ei3, Ed3.
  erewrite bindM_Ok by (now apply stage_plain).
  cbv zeta. cbn [bindM lift].
  set (i3 := VGGNetBlock_forward bi3 i2).
  destruct (unpack4_length (shape i3)) as (a3 & b3 & h3 & w3 & E3);
    [apply Hvgg; unfold i2; apply Hvgg; unfold i1; now apply Hvgg|].
  rewrite E3. cbn [unpack4 bindM lift].
  destruct (contains 3 (resolutions_backprojection self)) eqn:C3.
  { now apply bindM_Raise, stage_unbound. }
  destruct R3 as (bi4 & bd4 & Ei4 & Ed4). rewrite Ei4, Ed4.
  erewrite bindM_Ok by (now apply stage_plain).
  cbv zeta. cbn [bindM lift].
  set (i4 := VGGNetBlock_forward bi4 i3).
  destruct (unpack4_length (shape i4)) as (a4 & b4 & h4 & w4 & E4);
    [apply Hvgg; unfold i3; apply Hvgg; unfold i2; apply Hvgg; unfold i1;
     now apply Hvgg|].
  rewrite E4. cbn [unpack4 bindM lift].
  destruct (contains 4 (resolutions_backprojection self)) eqn:C4.
  { now apply bindM_Raise, stage_unbound. }
  exfalso.
  assert (Hn' : n = 1 \/ n = 2 \/ n = 3 \/ n = 4) by lia.
  destruct Hn' as [-> | [-> | [-> | ->]]]; congruence.
Qed.

(** *** The sizes of the pyramid *)

(** C6: with [resolutions_backprojection = [0, 1, 2]] and the default
    filters, on a non-empty batch of 3 x 256 x 256 images, 1 x 256 x 256
    depths and intrinsics in pinhole form, and with blocks that honor their
    contract on sizes, [forward] returns four skip connections, of sizes
    128, 64, 32 and 16 (finest first), and a latent tensor of size 8 x 8. *)
Theorem forward_default_sizes
        (self : t) (image depth : tensor) (K : list mat3) (n : nat) :
  stride_contract ->
  init (default_config [0; 1; 2]) = Ok self ->
  shape image = [n; 3; 256; 256] ->
  shape depth = [n; 1; 256; 256] ->
  0 < n -> length K = n -> Forall pinhole K ->
  exists latent skips log,
    forward self image depth K [] = Ok ((latent, skips), log) /\
    length skips = 4 /\
    map (fun s => last2 (shape s)) skips
    = [[128; 128]; [64; 64]; [32; 32]; [16; 16]] /\
    last2 (shape latent) = [8; 8].
Proof.
  intros (Hconv & Hvgg & Hkb & Hcat) Hinit Himage Hdepth Hn HK HP. subst n.
  unfold init in Hinit.
  change (check_lengths (default_config [0; 1; 2])) with (Ok tt) in Hinit.
  cbn [bind] in Hinit.
  destruct (activation_func _) as [act|]; [|discriminate].
  cbn in Hinit. injection Hinit as <-.
  unfold forward, stage. run.
  (* level 0 *)
  rewrite Himage. run.
  destruct (@camera_coordinates_returns
              (Cells (Some (length K)) (Some 256) (Some 256) None None)
              (length K) 256 256 K eq_refl eq_refl Hn HP) as (coordinates0 & E0).
  rewrite E0. run.
  match goal with
  | |- context [Conv2d_forward ?m image] =>
      pose proof (Hconv m image _ _ _ _ Himage) as Sc0i;
      set (c0i := Conv2d_forward m image) in *
  end.
  match goal with
  | |- context [Conv2d_forward ?m depth] =>
      pose proof (Hconv m depth _ _ _ _ Hdepth) as Sc0d;
      set (c0d := Conv2d_forward m depth) in *
  end.
  cbn [conv_out_channels conv_kernel_size conv_stride] in Sc0i, Sc0d.
  change (out_size 3 1 256) with 256 in Sc0i, Sc0d.
  match goal with
  | |- context [CalibratedBackprojectionBlock_forward ?m c0i c0d coordinates0 None] =>
      destruct (CalibratedBackprojectionBlock_forward m c0i c0d coordinates0 None)
        as [[i1 d1] f1] eqn:E1;
      destruct (Hkb _ _ _ _ _ _ _ _ _ _ _ _ _ Sc0i Sc0d E1) as (Si1 & Sd1 & Sf1)
  end.
  cbn [kb_n_filter_image kb_n_filter_depth kb_n_filter_fused] in Si1, Sd1, Sf1.
  change (out_size 3 2 256) with 128 in Si1, Sd1, Sf1.
  run.
  (* level 1 *)
  rewrite Si1. run.
  destruct (@scale_intrinsics_returns
              (Cells (Some (length K)) (Some 256) (Some 256) (Some 128) (Some 128))
              (length K) 256 256 128 128 K 256 256 128 128
              eq_refl eq_refl eq_refl eq_refl eq_refl
              ltac:(discriminate) ltac:(discriminate) ltac:(discriminate)
              ltac:(discriminate) HP) as (K1 & EK1 & L1 & P1).
  rewrite EK1. run.
  destruct (@camera_coordinates_returns
              (Cells (Some (length K)) (Some 256) (Some 256) (Some 128) (Some 128))
              (length K) 128 128 K1 eq_refl L1 Hn P1) as (coordinates1 & EC1).
  rewrite EC1. run.
  match goal with
  | |- context [CalibratedBackprojectionBlock_forward ?m i1 d1 coordinates1 ?f] =>
      destruct (CalibratedBackprojectionBlock_forward m i1 d1 coordinates1 f)
        as [[i2 d2] f2] eqn:E2;
      destruct (Hkb _ _ _ _ _ _ _ _ _ _ _ _ _ Si1 Sd1 E2) as (Si2 & Sd2 & Sf2)
  end.
  cbn [kb_n_filter_image kb_n_filter_depth kb_n_filter_fused] in Si2, Sd2, Sf2.
  change (out_size 3 2 128) with 64 in Si2, Sd2, Sf2.
  run.
  (* level 2 *)
  rewrite Si2. run.
  destruct (@scale_intrinsics_returns
              (Cells (Some (length K)) (Some 256) (Some 256) (Some 128) (Some 128))
              (length K) 256 256 64 64 K 256 256 128 128
              eq_refl eq_refl eq_refl eq_refl eq_refl
              ltac:(discriminate) ltac:(discriminate) ltac:(discriminate)
              ltac:(discriminate) HP) as (K2 & EK2 & L2 & P2).
  rewrite EK2. run.
  destruct (@camera_coordinates_returns
              (Cells (Some (length K)) (Some 256) (Some 256) (Some 128) (Some 128))
              (length K) 64 64 K2 eq_refl L2 Hn P2) as (coordinates2 & EC2).
  rewrite EC2. run.
  match goal with
  | |- context [CalibratedBackprojectionBlock_forward ?m i2 d2 coordinates2 ?f] =>
      destruct (CalibratedBackprojectionBlock_forward m i2 d2 coordinates2 f)
        as [[i3 d3] f3] eqn:E3;
      destruct (Hkb _ _ _ _ _ _ _ _ _ _ _ _ _ Si2 Sd2 E3) as (Si3 & Sd3 & Sf3)
  end.
  cbn [kb_n_filter_image kb_n_filter_depth kb_n_filter_fused] in Si3, Sd3, Sf3.
  change (out_size 3 2 64) with 32 in Si3, Sd3, Sf3.
  run.
  (* level 3 *)
  rewrite Si3. run.
  match goal with
  | |- context [VGGNetBlock_forward ?m f3] =>
      pose proof (Hvgg m f3 _ _ _ _ Sf3) as Si4;
      set (i4 := VGGNetBlock_forward m f3) in *
  end.
  match goal with
  | |- context [VGGNetBlock_forward ?m d3] =>
      pose proof (Hvgg m d3 _ _ _ _ Sd3) as Sd4;
      set (d4 := VGGNetBlock_forward m d3) in *
  end.
  cbn [vgg_out_channels vgg_stride] in Si4, Sd4.
  change (out_size 3 2 32) with 16 in Si4, Sd4.
  (* level 4 *)
  rewrite Si4. run.
  match goal with
  | |- context [VGGNetBlock_forward ?m i4] =>
      pose proof (Hvgg m i4 _ _ _ _ Si4) as Si5;
      set (i5 := VGGNetBlock_forward m i4) in *
  end.
  match goal with
  | |- context [VGGNetBlock_forward ?m d4] =>
      pose proof (Hvgg m d4 _ _ _ _ Sd4) as Sd5;
      set (d5 := VGGNetBlock_forward m d4) in *
  end.
  cbn [vgg_out_channels vgg_stride] in Si5, Sd5.
  change (out_size 3 2 16) with 8 in Si5, Sd5.
  cbn [app split_last rev removelast].
  do 3 eexists. split; [reflexivity|]. split; [reflexivity|].
  cbn [map].
  rewrite (Hcat _ _ _ _ _ _ _ Sf1 Sd1), (Hcat _ _ _ _ _ _ _ Sf2 Sd2),
    (Hcat _ _ _ _ _ _ _ Sf3 Sd3), (Hcat _ _ _ _ _ _ _ Si4 Sd4),
    (Hcat _ _ _ _ _ _ _ Si5 Sd5).
  split; reflexivity.
Qed.

End Forward.

End KBNetEncoderFacts.

Module KBNetEncoderFlow.

Import KBNetEncoder KBNetEncoderSpec KBNetEncoderFacts.

Section Flow.

Context `{NetUtils}.

Lemma forward_flow (self : t) (image depth : tensor) (K : list mat3)
      (r : tensor * list tensor) (log : list event) :
  forward self image depth K [] = Ok (r, log) ->
  forall n, 1 <= n <= 4 -> level_flow self log n.
Proof.
  intros Hf n Hn.
  unfold forward, stage in Hf.
  destruct (contains 0 (resolutions_backprojection self)) eqn:C0;
  destruct (contains 1 (resolutions_backprojection self)) eqn:C1;
  destruct (contains 2 (resolutions_backprojection self)) eqn:C2;
  destruct (contains 3 (resolutions_backprojection self)) eqn:C3;
  destruct (contains 4 (resolutions_backprojection self)) eqn:C4;
  run_in Hf;
  repeat invert_step Hf;
  cbn [app split_last rev removelast lift] in Hf;
  injection Hf as _ <-;
  assert (Hn' : n = 1 \/ n = 2 \/ n = 3 \/ n = 4) by lia;
  destruct Hn' as [-> | [-> | [-> | ->]]];
  unfold level_flow, is_calibrated, block_called, fused_input, fused_output;
  cbn; rewrite ?C1, ?C2, ?C3, ?C4; repeat split; congruence.
Qed.

End Flow.

End KBNetEncoderFlow.

Module KBNetEncoderClaims.

Import KBNetEncoder KBNetEncoderSpec KBNetEncoderFacts KBNetEncoderFlow.

Lemma pinhole_example : pinhole K_example.
Proof.
  unfold pinhole, invertible. repeat split; try reflexivity.
  vm_compute. discriminate.
Qed.

(** The symbolic instance honors the contract on sizes. *)
Lemma Sym_vgg_four (m : VGGNetBlock) (x : Sym.term) :
  length (Sym.size_of x) = 4 -> length (Sym.size_of (Sym.VGGOut m x)) = 4.
Proof.
  intro Hx. destruct (unpack4_length _ Hx) as (a & b & c & d & E).
  cbn [Sym.size_of]. now rewrite E.
Qed.

Lemma Sym_stride_contract : @stride_contract Sym.net.
Proof.
  repeat split.
  - intros m x n c h w E. cbn [shape Sym.net Conv2d_forward Sym.size_of] in *.
    now rewrite E.
  - intros m x n c h w E. cbn [shape Sym.net VGGNetBlock_forward Sym.size_of] in *.
    now rewrite E.
  - cbn [shape Sym.net CalibratedBackprojectionBlock_forward] in *.
    injection H1 as <- <- <-. cbn [Sym.size_of]. now rewrite H.
  - cbn [shape Sym.net CalibratedBackprojectionBlock_forward] in *.
    injection H1 as <- <- <-. cbn [Sym.size_of]. now rewrite H0.
  - cbn [shape Sym.net CalibratedBackprojectionBlock_forward] in *.
    injection H1 as <- <- <-. cbn [Sym.size_of]. now rewrite H.
  - intros a b n ca cb h w Ea Eb. cbn [shape Sym.net cat Sym.size_of] in *.
    rewrite Ea, Eb. cbn [nth]. now rewrite Nat.add_0_r.
Qed.

(** C3 (amended): for every level n in 1..4 of a run of [forward], a plain
    level n feeds its image block with the fused output of level n - 1 when
    that level was calibrated and with its image output otherwise; a
    calibrated level n hands the image output of level n - 1 to its
    backprojection block as [image], and the fused output of level n - 1
    (none when that level was plain) as the separate [fused] argument. *)
Theorem image_path_flow `{NetUtils}
        (self : t) (image depth : tensor) (K : list mat3)
        (r : tensor * list tensor) (log : list event) :
  forward self image depth K [] = Ok (r, log) ->
  forall n, 1 <= n <= 4 ->
    image_path_input n log
    = (if is_calibrated n log then image_output (n - 1) log
       else match fused_output (n - 1) log with
            | Some fused => Some fused
            | None => image_output (n - 1) log
            end) /\
    (is_calibrated n log = true ->
     fused_input n log = fused_output (n - 1) log).
Proof.
  intros Hf n Hn.
  destruct (forward_flow self image depth K Hf Hn) as (_ & Hi & Hc).
  split; [exact Hi|]. intro Hcal. now apply Hc.
Qed.

Lemma image_path_flow_witness :
  exists self r log,
    @init Sym.net (default_config [0; 2]) = Ok self /\
    @forward Sym.net self image4 depth4 [K_example] [] = Ok (r, log) /\
    forall n, 1 <= n <= 4 ->
      @image_path_input Sym.net n log
      = (if @is_calibrated Sym.net n log then @image_output Sym.net (n - 1) log
         else match @fused_output Sym.net (n - 1) log with
              | Some fused => Some fused
              | None => @image_output Sym.net (n - 1) log
              end) /\
      (@is_calibrated Sym.net n log = true ->
       @fused_input Sym.net n log = @fused_output Sym.net (n - 1) log).
Proof.
  let s := eval vm_compute in (@init Sym.net (default_config [0; 2])) in
  lazymatch s with
  | Ok ?self =>
      let f := eval vm_compute in
                 (@forward Sym.net self image4 depth4 [K_example] []) in
      lazymatch f with
      | Ok (?r, ?log) =>
          exists self, r, log;
          split; [reflexivity|];
          split; [vm_compute; reflexivity|];
          apply (@image_path_flow Sym.net self image4 depth4 [K_example] r log);
          vm_compute; reflexivity
      end
  end.
Defined.

(** C3 as stated fails on a calibrated level that follows a calibrated level:
    with the default [resolutions_backprojection = [0, 1, 2]], the image
    input of level 1 is the image output of level 0, which is not its fused
    output. *)
Lemma image_path_rule_fails :
  exists self r log,
    @init Sym.net (default_config [0; 1; 2]) = Ok self /\
    @forward Sym.net self image4 depth4 [K_example] [] = Ok (r, log) /\
    @is_calibrated Sym.net 0 log = true /\
    @image_path_input Sym.net 1 log = @image_output Sym.net 0 log /\
    ~ @image_path_rule Sym.net log 1.
Proof.
  let s := eval vm_compute in (@init Sym.net (default_config [0; 1; 2])) in
  lazymatch s with
  | Ok ?self =>
      let f := eval vm_compute in
                 (@forward Sym.net self image4 depth4 [K_example] []) in
      lazymatch f with
      | Ok (?r, ?log) => exists self, r, log
      end
  end.
  split; [reflexivity|].
  split; [vm_compute; reflexivity|].
  split; [reflexivity|]. split; [reflexivity|].
  unfold image_path_rule. vm_compute. discriminate.
Qed.

(** C2 (the code departs from it): with all five levels calibrated, the
    calibration step of level 4 calls the block registered as
    [calibrated_backprojection4], the block of level 3; the block
    [calibrated_backprojection5] is registered and never called.  When level
    4 is calibrated and level 3 is not, the attribute that level 4 reads is
    missing. *)
Theorem level4_calls_block_of_level3 :
  (exists self r log b5,
      @init Sym.net (default_config [0; 1; 2; 3; 4]) = Ok self /\
      @forward Sym.net self image4 depth4 [K_example] [] = Ok (r, log) /\
      @block_called Sym.net 4 log = calibrated_backprojection4 self /\
      @block_called Sym.net 3 log = calibrated_backprojection4 self /\
      calibrated_backprojection5 self = Some b5 /\
      @block_called Sym.net 4 log <> Some b5 /\
      ~ In b5 (@blocks_called Sym.net log)) /\
  (exists self,
      @init Sym.net (default_config [0; 4]) = Ok self /\
      @forward Sym.net self image4 depth4 [K_example] [] = Raise AttributeError).
Proof.
  split.
  - let s := eval vm_compute in (@init Sym.net (default_config [0; 1; 2; 3; 4])) in
    lazymatch s with
    | Ok ?self =>
        let f := eval vm_compute in
                   (@forward Sym.net self image4 depth4 [K_example] []) in
        let b := eval vm_compute in (calibrated_backprojection5 self) in
        lazymatch f with
        | Ok (?r, ?log) =>
            lazymatch b with
            | Some ?b5 => exists self, r, log, b5
            end
        end
    end.
    split; [reflexivity|].
    split; [vm_compute; reflexivity|].
    split; [reflexivity|]. split; [reflexivity|]. split; [reflexivity|].
    split.
    + vm_compute. discriminate.
    + vm_compute. intuition discriminate.
  - let s := eval vm_compute in (@init Sym.net (default_config [0; 4])) in
    lazymatch s with
    | Ok ?self => exists self
    end.
    split; [reflexivity|]. vm_compute. reflexivity.
Qed.

(** C5 on the symbolic instance. *)
Lemma forward_requires_level0_witness :
  exists self,
    @init Sym.net (default_config [1; 2]) = Ok self /\
    @forward Sym.net self image4 depth4 [K_example] [] = Raise UnboundLocalError /\
    is_name_error UnboundLocalError = true.
Proof.
  let s := eval vm_compute in (@init Sym.net (default_config [1; 2])) in
  lazymatch s with
  | Ok ?self => exists self
  end.
  split; [reflexivity|].
  apply (@forward_requires_level0 Sym.net (default_config [1; 2])).
  - exact Sym_vgg_four.
  - reflexivity.
  - reflexivity.
  - reflexivity.
  - exists 1. split; [lia | reflexivity].
Defined.

(** C6 on the symbolic instance. *)
Lemma forward_default_sizes_witness :
  exists self latent skips log,
    @init Sym.net (default_config [0; 1; 2]) = Ok self /\
    @forward Sym.net self image256 depth256 [K_example] [] = Ok ((latent, skips), log) /\
    length skips = 4 /\
    map (fun s => last2 (@shape Sym.net s)) skips
    = [[128; 128]; [64; 64]; [32; 32]; [16; 16]] /\
    last2 (@shape Sym.net latent) = [8; 8].
Proof.
  let s := eval vm_compute in (@init Sym.net (default_config [0; 1; 2])) in
  lazymatch s with
  | Ok ?self =>
      exists self;
      destruct (@forward_default_sizes Sym.net self image256 depth256 [K_example] 1
                  Sym_stride_contract eq_refl eq_refl eq_refl
                  ltac:(lia) eq_refl
                  (Forall_cons _ pinhole_example (Forall_nil _)))
        as (latent & skips & log & Hf & Hl & Hs & Hb);
      exists latent, skips, log; repeat split; assumption
  end.
Defined.

End KBNetEncoderClaims.

(** ** [MultiScaleDecoder] *)

Module MultiScaleDecoderFacts.

Import MultiScaleDecoder MultiScaleDecoderSpec.

Section Decoder.

Context `{NetUtils}.













Lemma bind_inv {A B : Type} (m : result A) (f : A -> result B) (b : B) :
  bind m f = Ok b -> exists a, m = Ok a /\ f a = Ok b.
Proof.
  destruct m as [a|e]; [|discriminate]. intro E. now exists a.
Qed.


Lemma init_plain_inv c act present attr idx chans block idx' chans' :
  init_plain c act present attr idx chans = Ok (block, idx', chans') ->
  (block = None <-> present = false).
Proof.
  unfold init_plain. destruct present.
  - intro E. apply bind_inv in E. destruct E as (ch & _ & E).
    injection E as <- _ _. split; discriminate.
  - intro E. injection E as <- _ _. tauto.
Qed.








End Decoder.



End MultiScaleDecoderFacts.
